(** * GAN generators and discriminators: the CycleGAN trainer, the PatchGan
      builder and the ViT discriminator

    A shallow embedding of [cyclegan/CycleGan.py],
    [transgan/build_discriminator.py] and [resnet/ResNet.py].

    Numbers are exact reals: a tensor is the list of its elements, an
    elementwise operation pairs the elements of two tensors of one shape,
    and a mean divides the sum by the number of elements.  Rounding, NaN
    entries and infinities of the float32 kernels are not represented;
    the mean of a tensor without elements, NaN in the framework, is so in
    [tf_reduce_mean].  The primitives of the
    tensor framework the code only calls (reverse-mode differentiation,
    the Adam update rule, the layers of a network) are operations of the
    class [Framework] or fields of a [Model]; what a layer keeps besides
    its trainable variables (moving statistics, random masks) is not
    represented.  A dataset is the list of its batches and yields them in
    the same order at every pass.  The factor [expand] of the data
    loading is a binary64 float, as in Python, and [int(x*expand)] is
    computed on floats. *)

From Stdlib Require Import Reals Lra Ascii.
From Stdlib Require SpecFloat PrimFloat FloatOps.
From stdpp Require Import gmap strings list pretty.

(** ** Python results *)

Inductive exn : Type :=
  | AttributeError (name : string)
  | UnboundLocalError (name : string)
  | InvalidArgumentError (what : string)
  | StopIteration.

Inductive result (A : Type) : Type :=
  | Ok (a : A)
  | Raise (e : exn).
Arguments Ok {A} a.
Arguments Raise {A} e.

#[global] Instance result_ret : MRet result := @Ok.
#[global] Instance result_bind : MBind result := λ A B k m,
  match m with Ok a => k a | Raise e => Raise e end.

(** Reading a local variable: unbound until the first assignment. *)
Definition read_local {A} (name : string) (v : option A) : result A :=
  match v with Some a => Ok a | None => Raise (UnboundLocalError name) end.

(** Reading an instance attribute: absent until the first assignment. *)
Definition getattr {A} (name : string) (slot : option A) : result A :=
  match slot with Some a => Ok a | None => Raise (AttributeError name) end.

(** ** Tensors *)

Module Tensor.
Local Open Scope R_scope.

Definition tensor : Type := list R.

Definition ones_like (t : tensor) : tensor := (λ _, 1) <$> t.
Definition zeros_like (t : tensor) : tensor := (λ _, 0) <$> t.

(** [a - b] on two tensors of one shape. *)
Definition sub (a b : tensor) : tensor := zip_with Rminus a b.
Definition abs (t : tensor) : tensor := Rabs <$> t.

Definition reduce_sum (t : tensor) : R := foldr Rplus 0 t.
Definition reduce_mean (t : tensor) : R := reduce_sum t / INR (length t).

(** A scalar of the framework: a number, or NaN. *)
Inductive scalar : Type :=
  | Number (x : R)
  | NaN.

(** [tf.reduce_mean] with its case without a number: the mean of a tensor
    without elements is 0 / 0; on every other tensor it is [reduce_mean]. *)
Definition tf_reduce_mean (t : tensor) : scalar :=
  match t with
  | [] => NaN
  | _ => Number (reduce_mean t)
  end.

(** [k * s]: NaN stays NaN. *)
Definition scalar_mul (k : R) (s : scalar) : scalar :=
  match s with
  | Number x => Number (k * x)
  | NaN => NaN
  end.

(** The framework's cross-entropy on a logit [x] with label [z]:
    [max(x, 0) - x * z + log(1 + exp(-abs(x)))]. *)
Definition sigmoid_cross_entropy_with_logits (z x : R) : R :=
  Rmax x 0 - x * z + ln (1 + exp (- Rabs x)).

(** [tf.keras.losses.BinaryCrossentropy(from_logits=True)] called on
    [(y_true, y_pred)]: the mean of the elementwise cross-entropy. *)
Definition BinaryCrossentropy (y_true y_pred : tensor) : R :=
  reduce_mean (zip_with sigmoid_cross_entropy_with_logits y_true y_pred).

End Tensor.
Export Tensor.

(** ** Models, optimizers and the framework *)

(** The trainable variables of a network, one tensor per variable. *)
Definition weights : Type := list tensor.

(** A Keras model: its forward function (of the variables, the [training]
    flag and the input) and the current value of its variables. *)
Record Model : Type := {
  call : weights → bool → tensor → tensor;
  trainable_variables : weights;
}.

Definition assign (m : Model) (w : weights) : Model :=
  {| call := call m; trainable_variables := w |}.

(** [model(x, training=t)] *)
Definition apply (m : Model) (x : tensor) (training : bool) : tensor :=
  call m (trainable_variables m) training x.

(** A [tf.keras.optimizers.Adam]: its hyperparameters, step count and the
    moment slots. *)
Record Adam : Type := {
  learning_rate : R;
  beta_1 : R;
  beta_2 : R;
  epsilon : R;
  iterations : nat;
  slots : list (tensor * tensor);
}.

(** [tf.keras.optimizers.Adam(learning_rate=lr, beta_1=b1)]: the other
    hyperparameters keep the framework's defaults. *)
Definition Adam_default_beta_2 : R := 0.999%R.
Definition Adam_default_epsilon : R := 1e-7%R.

Definition new_Adam (lr b1 : R) : Adam :=
  {| learning_rate := lr; beta_1 := b1;
     beta_2 := Adam_default_beta_2; epsilon := Adam_default_epsilon;
     iterations := 0; slots := [] |}.

(** What the code calls from the framework at a training step. *)
Class Framework : Type := {
  (** [tape.gradient(target, sources)]: the gradient at [sources] of the
      recorded [target], a function of those variables. *)
  gradient : (weights → R) → weights → list tensor;
  (** [optimizer.apply_gradients(grads_and_vars)]: the optimizer after
      the step and the new values of the variables. *)
  apply_gradients : Adam → list (tensor * tensor) → Adam * weights;
}.

(** ** [class CycleGanTraining] *)

Module CycleGan.
Local Open Scope R_scope.

(** Names under which [tf.train.Checkpoint] tracks the trainer's objects,
    and the number of checkpoints it has written. *)
Record Checkpoint : Type := {
  tracked : list string;
  save_counter : nat;
}.

(** The instance: the attributes [__init__] assigns are fields; the
    attribute [checkpoint_prefix], which [save] reads, is a slot that is
    absent until something assigns it. *)
Record CycleGanTraining : Type := {
  generator_g : Model;
  generator_f : Model;
  discriminator_x : Model;
  discriminator_y : Model;
  LAMBDA : Z;
  loss_obj : tensor → tensor → R;
  generator_g_optimizer : Adam;
  generator_f_optimizer : Adam;
  discriminator_x_optimizer : Adam;
  discriminator_y_optimizer : Adam;
  checkpoint : Checkpoint;
  checkpoint_prefix : option (option string);
}.

Definition __init__
    (generator_g generator_f discriminator_x discriminator_y : Model)
    (learning_rate beta_1 beta_2 : R)
    (checkpoint_prefix : option string) : CycleGanTraining :=
  {| generator_g := generator_g;
     generator_f := generator_f;
     discriminator_x := discriminator_x;
     discriminator_y := discriminator_y;
     LAMBDA := 10;
     loss_obj := BinaryCrossentropy;
     generator_g_optimizer := new_Adam learning_rate beta_1;
     generator_f_optimizer := new_Adam learning_rate beta_1;
     discriminator_x_optimizer := new_Adam learning_rate beta_1;
     discriminator_y_optimizer := new_Adam learning_rate beta_1;
     checkpoint :=
       {| tracked := ["generator_g"; "generator_f";
                      "discriminator_x"; "discriminator_y";
                      "generator_g_optimizer"; "generator_f_optimizer";
                      "discriminator_x_optimizer"; "discriminator_y_optimizer"];
          save_counter := 0 |};
     checkpoint_prefix := None |}.

(** What [__init__] establishes and every method keeps. *)
Definition trainer_invariant (self : CycleGanTraining) : Prop :=
  LAMBDA self = 10%Z ∧ loss_obj self = BinaryCrossentropy ∧
  checkpoint_prefix self = None.

(** The defaults of [__init__]'s keyword arguments. *)
Definition default_learning_rate : R := 2e-4.
Definition default_beta_1 : R := 0.5.
Definition default_beta_2 : R := 0.999.

Section Losses.
Context (self : CycleGanTraining).

Definition discriminator_loss (real generated : tensor) : R :=
  let real_loss := loss_obj self (ones_like real) real in
  let generated_loss := loss_obj self (zeros_like generated) generated in
  let total_disc_loss := real_loss + generated_loss in
  total_disc_loss * 0.5.

Definition generator_loss (generated : tensor) : R :=
  loss_obj self (ones_like generated) generated.

Definition calc_cycle_loss (real_image cycled_image : tensor) : R :=
  let loss1 := reduce_mean (abs (sub real_image cycled_image)) in
  IZR (LAMBDA self) * loss1.

Definition identity_loss (real_image same_image : tensor) : R :=
  let loss := reduce_mean (abs (sub real_image same_image)) in
  IZR (LAMBDA self) * 0.5 * loss.

(** The same two losses with the mean as the framework computes it. *)
Definition tf_calc_cycle_loss (real_image cycled_image : tensor) : scalar :=
  let loss1 := tf_reduce_mean (abs (sub real_image cycled_image)) in
  scalar_mul (IZR (LAMBDA self)) loss1.

Definition tf_identity_loss (real_image same_image : tensor) : scalar :=
  let loss := tf_reduce_mean (abs (sub real_image same_image)) in
  scalar_mul (IZR (LAMBDA self) * 0.5) loss.
End Losses.

(** In-place updates of the objects the trainer owns. *)
Definition set_generator_g (self : CycleGanTraining) (m : Model) :=
  {| generator_g := m; generator_f := generator_f self;
     discriminator_x := discriminator_x self;
     discriminator_y := discriminator_y self;
     LAMBDA := LAMBDA self; loss_obj := loss_obj self;
     generator_g_optimizer := generator_g_optimizer self;
     generator_f_optimizer := generator_f_optimizer self;
     discriminator_x_optimizer := discriminator_x_optimizer self;
     discriminator_y_optimizer := discriminator_y_optimizer self;
     checkpoint := checkpoint self;
     checkpoint_prefix := checkpoint_prefix self |}.

Definition set_generator_f (self : CycleGanTraining) (m : Model) :=
  {| generator_g := generator_g self; generator_f := m;
     discriminator_x := discriminator_x self;
     discriminator_y := discriminator_y self;
     LAMBDA := LAMBDA self; loss_obj := loss_obj self;
     generator_g_optimizer := generator_g_optimizer self;
     generator_f_optimizer := generator_f_optimizer self;
     discriminator_x_optimizer := discriminator_x_optimizer self;
     discriminator_y_optimizer := discriminator_y_optimizer self;
     checkpoint := checkpoint self;
     checkpoint_prefix := checkpoint_prefix self |}.

Definition set_discriminator_x (self : CycleGanTraining) (m : Model) :=
  {| generator_g := generator_g self; generator_f := generator_f self;
     discriminator_x := m;
     discriminator_y := discriminator_y self;
     LAMBDA := LAMBDA self; loss_obj := loss_obj self;
     generator_g_optimizer := generator_g_optimizer self;
     generator_f_optimizer := generator_f_optimizer self;
     discriminator_x_optimizer := discriminator_x_optimizer self;
     discriminator_y_optimizer := discriminator_y_optimizer self;
     checkpoint := checkpoint self;
     checkpoint_prefix := checkpoint_prefix self |}.

Definition set_discriminator_y (self : CycleGanTraining) (m : Model) :=
  {| generator_g := generator_g self; generator_f := generator_f self;
     discriminator_x := discriminator_x self;
     discriminator_y := m;
     LAMBDA := LAMBDA self; loss_obj := loss_obj self;
     generator_g_optimizer := generator_g_optimizer self;
     generator_f_optimizer := generator_f_optimizer self;
     discriminator_x_optimizer := discriminator_x_optimizer self;
     discriminator_y_optimizer := discriminator_y_optimizer self;
     checkpoint := checkpoint self;
     checkpoint_prefix := checkpoint_prefix self |}.

Definition set_optimizers (self : CycleGanTraining) (og ofx odx ody : Adam) :=
  {| generator_g := generator_g self; generator_f := generator_f self;
     discriminator_x := discriminator_x self;
     discriminator_y := discriminator_y self;
     LAMBDA := LAMBDA self; loss_obj := loss_obj self;
     generator_g_optimizer := og;
     generator_f_optimizer := ofx;
     discriminator_x_optimizer := odx;
     discriminator_y_optimizer := ody;
     checkpoint := checkpoint self;
     checkpoint_prefix := checkpoint_prefix self |}.

Definition set_checkpoint (self : CycleGanTraining) (c : Checkpoint) :=
  {| generator_g := generator_g self; generator_f := generator_f self;
     discriminator_x := discriminator_x self;
     discriminator_y := discriminator_y self;
     LAMBDA := LAMBDA self; loss_obj := loss_obj self;
     generator_g_optimizer := generator_g_optimizer self;
     generator_f_optimizer := generator_f_optimizer self;
     discriminator_x_optimizer := discriminator_x_optimizer self;
     discriminator_y_optimizer := discriminator_y_optimizer self;
     checkpoint := c;
     checkpoint_prefix := checkpoint_prefix self |}.

(** *** [train_step] *)

(** The values the body of [with tf.GradientTape(persistent=True)]
    computes. *)
Record Tape : Type := {
  fake_y : tensor; cycled_x : tensor;
  fake_x : tensor; cycled_y : tensor;
  same_x : tensor; same_y : tensor;
  disc_real_x : tensor; disc_real_y : tensor;
  disc_fake_x : tensor; disc_fake_y : tensor;
  gen_g_loss : R; gen_f_loss : R;
  total_cycle_loss : R;
  total_gen_g_loss : R; total_gen_f_loss : R;
  disc_x_loss : R; disc_y_loss : R;
}.

Definition tape (self : CycleGanTraining) (real_x real_y : tensor) : Tape :=
  let fake_y := apply (generator_g self) real_x true in
  let cycled_x := apply (generator_f self) fake_y true in

  let fake_x := apply (generator_f self) real_y true in
  let cycled_y := apply (generator_g self) fake_x true in

  let same_x := apply (generator_f self) real_x true in
  let same_y := apply (generator_g self) real_y true in

  let disc_real_x := apply (discriminator_x self) real_x true in
  let disc_real_y := apply (discriminator_y self) real_y true in

  let disc_fake_x := apply (discriminator_x self) fake_x true in
  let disc_fake_y := apply (discriminator_y self) fake_y true in

  let gen_g_loss := generator_loss self disc_fake_y in
  let gen_f_loss := generator_loss self disc_fake_x in

  let total_cycle_loss :=
    calc_cycle_loss self real_x cycled_x + calc_cycle_loss self real_y cycled_y in

  let total_gen_g_loss :=
    gen_g_loss + total_cycle_loss + identity_loss self real_y same_y in
  let total_gen_f_loss :=
    gen_f_loss + total_cycle_loss + identity_loss self real_x same_x in

  let disc_x_loss := discriminator_loss self disc_real_x disc_fake_x in
  let disc_y_loss := discriminator_loss self disc_real_y disc_fake_y in
  {| fake_y := fake_y; cycled_x := cycled_x;
     fake_x := fake_x; cycled_y := cycled_y;
     same_x := same_x; same_y := same_y;
     disc_real_x := disc_real_x; disc_real_y := disc_real_y;
     disc_fake_x := disc_fake_x; disc_fake_y := disc_fake_y;
     gen_g_loss := gen_g_loss; gen_f_loss := gen_f_loss;
     total_cycle_loss := total_cycle_loss;
     total_gen_g_loss := total_gen_g_loss;
     total_gen_f_loss := total_gen_f_loss;
     disc_x_loss := disc_x_loss; disc_y_loss := disc_y_loss |}.


(** The four targets as the tape records them: each a function of the
    variables of the network it is differentiated against, the other three
    networks held at their current values. *)
Definition total_gen_g_loss_of (self : CycleGanTraining) (real_x real_y : tensor)
    (w : weights) : R :=
  total_gen_g_loss
    (tape (set_generator_g self (assign (generator_g self) w)) real_x real_y).

Definition total_gen_f_loss_of (self : CycleGanTraining) (real_x real_y : tensor)
    (w : weights) : R :=
  total_gen_f_loss
    (tape (set_generator_f self (assign (generator_f self) w)) real_x real_y).

Definition disc_x_loss_of (self : CycleGanTraining) (real_x real_y : tensor)
    (w : weights) : R :=
  disc_x_loss
    (tape (set_discriminator_x self (assign (discriminator_x self) w)) real_x real_y).

Definition disc_y_loss_of (self : CycleGanTraining) (real_x real_y : tensor)
    (w : weights) : R :=
  disc_y_loss
    (tape (set_discriminator_y self (assign (discriminator_y self) w)) real_x real_y).

Section Training.
Context `{Framework}.

Definition train_step (self : CycleGanTraining) (real_x real_y : tensor)
    : CycleGanTraining * (R * R) :=
  let t := tape self real_x real_y in

  let generator_g_gradients :=
    gradient (total_gen_g_loss_of self real_x real_y)
             (trainable_variables (generator_g self)) in
  let generator_f_gradients :=
    gradient (total_gen_f_loss_of self real_x real_y)
             (trainable_variables (generator_f self)) in

  let discriminator_x_gradients :=
    gradient (disc_x_loss_of self real_x real_y)
             (trainable_variables (discriminator_x self)) in
  let discriminator_y_gradients :=
    gradient (disc_y_loss_of self real_x real_y)
             (trainable_variables (discriminator_y self)) in

  let '(og, wg) :=
    apply_gradients (generator_g_optimizer self)
      (zip generator_g_gradients (trainable_variables (generator_g self))) in
  let '(ofx, wf) :=
    apply_gradients (generator_f_optimizer self)
      (zip generator_f_gradients (trainable_variables (generator_f self))) in
  let '(odx, wdx) :=
    apply_gradients (discriminator_x_optimizer self)
      (zip discriminator_x_gradients (trainable_variables (discriminator_x self))) in
  let '(ody, wdy) :=
    apply_gradients (discriminator_y_optimizer self)
      (zip discriminator_y_gradients (trainable_variables (discriminator_y self))) in

  let self := set_generator_g self (assign (generator_g self) wg) in
  let self := set_generator_f self (assign (generator_f self) wf) in
  let self := set_discriminator_x self (assign (discriminator_x self) wdx) in
  let self := set_discriminator_y self (assign (discriminator_y self) wdy) in
  let self := set_optimizers self og ofx odx ody in
  (self, (disc_x_loss t, total_gen_g_loss t)).

(** One optimizer step on a network: the gradient of [target] at the
    network's variables, paired with those variables. *)
Definition own_step (o : Adam) (target : weights → R) (m : Model)
    : Adam * weights :=
  apply_gradients o
    (zip (gradient target (trainable_variables m)) (trainable_variables m)).

(** The trainer after [train_step] on each batch in turn, and after
    whole passes over the batches. *)
Definition run_steps (self : CycleGanTraining)
    (batches : list (tensor * tensor)) : CycleGanTraining :=
  foldl (λ self '(image_x, image_y), (train_step self image_x image_y).1)
        self batches.

Definition after_epochs (self : CycleGanTraining)
    (batches : list (tensor * tensor)) (n : nat) : CycleGanTraining :=
  Nat.iter n (λ self, run_steps self batches) self.

(** What [train_step] returns on the last batch [(image_x, image_y)]
    of epoch [e + 1], after [e] passes over all the batches and one over
    the batches [init] before the last, in a run that starts from
    [self]. *)
Definition last_batch_losses (init : list (tensor * tensor))
    (image_x image_y : tensor) (self : CycleGanTraining) (e : nat) : R * R :=
  (train_step
     (run_steps (after_epochs self (init ++ [(image_x, image_y)]) e) init)
     image_x image_y).2.

(** *** [generate_images] and [train] *)

(** The two images shown; plotting changes nothing the trainer owns. *)
Definition generate_images (self : CycleGanTraining) (model : Model)
    (test_input : tensor) : list tensor :=
  let prediction := apply model test_input false in
  [test_input; prediction].

(** [next(iter(dataset))] *)
Definition next_iter (dataset : list tensor) : result tensor :=
  match dataset with
  | batch :: _ => Ok batch
  | [] => Raise StopIteration
  end.

(** The trainer and the locals of [train] that outlive an iteration. *)
Record train_locals : Type := {
  this : CycleGanTraining;
  gen_loss_list : list R;
  disc_loss_list : list R;
  epoch_list : list nat;
  disc_loss : option R;
  gen_loss : option R;
}.

(** [for image_x, image_y in tf.data.Dataset.zip((train_img, train_tar))] *)
Definition batch_loop (l : train_locals) (batches : list (tensor * tensor))
    : train_locals :=
  foldl (λ l '(image_x, image_y),
           let '(self, (disc_loss, gen_loss)) :=
             train_step (this l) image_x image_y in
           {| this := self;
              gen_loss_list := gen_loss_list l;
              disc_loss_list := disc_loss_list l;
              epoch_list := epoch_list l;
              disc_loss := Some disc_loss;
              gen_loss := Some gen_loss |})
        l batches.

(** The body of [for epoch in range(epochs)]. *)
Definition epoch_body (train_img train_tar : list tensor)
    (l : train_locals) (epoch : nat) : result train_locals :=
  let l := batch_loop l (zip train_img train_tar) in
  sample_img ← next_iter train_img;
  sample_tar ← next_iter train_tar;
  let _ := generate_images (this l) (generator_g (this l)) sample_img in
  disc_loss ← read_local "disc_loss" (disc_loss l);
  gen_loss ← read_local "gen_loss" (gen_loss l);
  Ok {| this := this l;
        gen_loss_list := gen_loss_list l ++ [gen_loss];
        disc_loss_list := disc_loss_list l ++ [disc_loss];
        epoch_list := epoch_list l ++ [(epoch + 1)%nat];
        disc_loss := Some disc_loss;
        gen_loss := Some gen_loss |}.

Fixpoint epoch_loop (train_img train_tar : list tensor)
    (range : list nat) (l : train_locals) : result train_locals :=
  match range with
  | [] => Ok l
  | epoch :: range =>
      l ← epoch_body train_img train_tar l epoch;
      epoch_loop train_img train_tar range l
  end.

(** [train] returns the array of the three lists; the trainer it leaves
    behind is returned with it. *)
Definition train (self : CycleGanTraining) (train_img train_tar : list tensor)
    (epochs : nat) : result (CycleGanTraining * (list nat * list R * list R)) :=
  let l := {| this := self; gen_loss_list := []; disc_loss_list := [];
              epoch_list := []; disc_loss := None; gen_loss := None |} in
  l ← epoch_loop train_img train_tar (seq 0 epochs) l;
  Ok (this l, (epoch_list l, gen_loss_list l, disc_loss_list l)).
End Training.

(** *** [save] *)

(** What a checkpoint file holds of a tracked object. *)
Inductive saved : Type :=
  | SavedModel (w : weights)
  | SavedOptimizer (o : Adam).

Definition tracked_object (self : CycleGanTraining) (name : string) : option saved :=
  if decide (name = "generator_g") then
    Some (SavedModel (trainable_variables (generator_g self)))
  else if decide (name = "generator_f") then
    Some (SavedModel (trainable_variables (generator_f self)))
  else if decide (name = "discriminator_x") then
    Some (SavedModel (trainable_variables (discriminator_x self)))
  else if decide (name = "discriminator_y") then
    Some (SavedModel (trainable_variables (discriminator_y self)))
  else if decide (name = "generator_g_optimizer") then
    Some (SavedOptimizer (generator_g_optimizer self))
  else if decide (name = "generator_f_optimizer") then
    Some (SavedOptimizer (generator_f_optimizer self))
  else if decide (name = "discriminator_x_optimizer") then
    Some (SavedOptimizer (discriminator_x_optimizer self))
  else if decide (name = "discriminator_y_optimizer") then
    Some (SavedOptimizer (discriminator_y_optimizer self))
  else None.

(** Checkpoints by path: under [file_prefix-N] what the index and data
    files of that checkpoint hold.  The bookkeeping file [checkpoint] of
    the directory, which every save rewrites, is not represented. *)
Definition files : Type := gmap string (list (string * option saved)).

(** [tf.train.Checkpoint.save(file_prefix)]: counts the checkpoint, writes
    the tracked objects to [file_prefix-N] and returns that path. *)
Definition Checkpoint_save (self : CycleGanTraining) (fs : files)
    (file_prefix : string) : CycleGanTraining * files * string :=
  let c := checkpoint self in
  let n := S (save_counter c) in
  let path := file_prefix +:+ "-" +:+ pretty n in
  let content := (λ name, (name, tracked_object self name)) <$> tracked c in
  (set_checkpoint self {| tracked := tracked c; save_counter := n |},
   <[path := content]> fs,
   path).

(** Truth value of a prefix: [None] and the empty string are false. *)
Definition truthy (checkpoint_prefix : option string) : bool :=
  match checkpoint_prefix with
  | Some s => bool_decide (s ≠ "")
  | None => false
  end.

(** The string a truthy prefix holds. *)
Definition prefix_string (checkpoint_prefix : option string) : string :=
  default "" checkpoint_prefix.

Definition save (self : CycleGanTraining) (fs : files)
    (checkpoint_prefix : option string)
    : result (CycleGanTraining * files * option string) :=
  if truthy checkpoint_prefix then
    let '(self, fs, path) :=
      Checkpoint_save self fs (prefix_string checkpoint_prefix) in
    Ok (self, fs, Some path)
  else
    configured ← getattr "checkpoint_prefix" (CycleGan.checkpoint_prefix self);
    if truthy configured then
      let '(self, fs, path) :=
        Checkpoint_save self fs (prefix_string configured) in
      Ok (self, fs, Some path)
    else
      Ok (self, fs, None).

End CycleGan.

(** ** The PatchGan discriminator builder of [CycleGan.py] *)

Module PatchGan.

(** [str.lower] on the letters A-Z; every other character the two
    normalization names could match is unchanged by it. *)
Definition lower_ascii (c : ascii) : ascii :=
  let n := nat_of_ascii c in
  if (65 <=? n)%nat && (n <=? 90)%nat then ascii_of_nat (n + 32) else c.

Fixpoint lower (s : string) : string :=
  match s with
  | EmptyString => EmptyString
  | String c s => String (lower_ascii c) (lower s)
  end.

#[local] Unset Elimination Schemes.

Inductive layer : Type :=
  | Conv2D (filters size strides : nat) (padding : string) (use_bias : bool)
  | BatchNormalization
  | InstanceNormalization
  | LeakyReLU
  | ZeroPadding2D
  | Sequential (layers : list layer).

(** Symbolic tensors of the functional API. *)
Inductive node : Type :=
  | Input (name : string)
  | concatenate (inputs : list node)
  | Call (l : layer) (x : node).

#[local] Set Elimination Schemes.

Record KerasModel : Type := {
  inputs : list node;
  outputs : node;
}.

(** The two normalizations the builders know, in any letter case. *)
Definition known_norm_type (norm_type : string) : Prop :=
  lower norm_type = "batchnorm" ∨ lower norm_type = "instancenorm".

Definition downsample (filters size : nat) (norm_type : string)
    (apply_norm : bool) : layer :=
  let result := [Conv2D filters size 2 "same" false] in
  let result :=
    if apply_norm then
      if decide (lower norm_type = "batchnorm") then
        result ++ [BatchNormalization]
      else if decide (lower norm_type = "instancenorm") then
        result ++ [InstanceNormalization]
      else result
    else result in
  let result := result ++ [LeakyReLU] in
  Sequential result.

Definition discriminator (norm_type : string) (target : bool)
    : result KerasModel :=
  let inp := Input "input_image" in
  let x := inp in
  let tar := Input "target_image" in
  let x := if target then concatenate [inp; tar] else x in

  let down1 := Call (downsample 64 4 norm_type false) x in
  let down2 := Call (downsample 128 4 norm_type true) down1 in
  let down3 := Call (downsample 256 4 norm_type true) down2 in

  let zero_pad1 := Call ZeroPadding2D down3 in
  let conv := Call (Conv2D 512 4 1 "valid" false) zero_pad1 in

  let norm1 : option node :=
    if decide (lower norm_type = "batchnorm") then
      Some (Call BatchNormalization conv)
    else if decide (lower norm_type = "instancenorm") then
      Some (Call InstanceNormalization conv)
    else None in

  norm1 ← read_local "norm1" norm1;
  let leaky_relu := Call LeakyReLU norm1 in

  let zero_pad2 := Call ZeroPadding2D leaky_relu in

  let last := Call (Conv2D 1 4 1 "valid" true) zero_pad2 in

  if target then
    Ok {| inputs := [inp; tar]; outputs := last |}
  else
    Ok {| inputs := [inp]; outputs := last |}.

End PatchGan.

(** ** The ViT discriminator of [transgan/build_discriminator.py] *)

Module TransGan.
Local Open Scope R_scope.

(** A token is its embedding vector; a rank-3 tensor is indexed by
    (batch, position), a rank-4 tensor by (batch, row, column). *)
Abbreviation token := (list R).
Abbreviation tensor3 := (list (list token)).
Abbreviation tensor4 := (list (list (list token))).

Definition shape3 (x : tensor3) : nat * nat * nat :=
  (length x, length (hd [] x), length (hd [] (hd [] x))).

Definition shape4 (x : tensor4) : nat * nat * nat * nat :=
  (length x, length (hd [] x), length (hd [] (hd [] x)),
   length (hd [] (hd [] (hd [] x)))).

(** Elementwise sum of two rank-3 tensors of one shape: [layers.Add]. *)
Definition Add (a b : tensor3) : tensor3 :=
  zip_with (zip_with (zip_with Rplus)) a b.

(** [x + pos_embed], the embedding of shape (1, N, E) broadcast over the
    batch. *)
Definition add_broadcast (x : tensor3) (pos_embed : list token) : tensor3 :=
  (λ row, zip_with (zip_with Rplus) row pos_embed) <$> x.

(** [layers.Concatenate(axis=-1)] *)
Definition Concatenate (a b : tensor3) : tensor3 :=
  zip_with (zip_with app) a b.

(** [h] rows of [w] tokens each. *)
Fixpoint rows_of (h w : nat) (l : list token) : list (list token) :=
  match h with
  | O => []
  | S h => take w l :: rows_of h w (drop w l)
  end.

(** [layers.Reshape((h, w, c))] on a (B, N, c) tensor: [N] must be
    [h * w]. *)
Definition Reshape_grid (h w : nat) (x : tensor3) : result tensor4 :=
  mapM (λ row, if decide (length row = (h * w)%nat)
               then Ok (rows_of h w row)
               else Raise (InvalidArgumentError "Reshape")) x.

(** [layers.Reshape((-1, c))] on a (B, h, w, c) tensor. *)
Definition Reshape_tokens (x : tensor4) : tensor3 := (λ grid, concat grid) <$> x.

(** [layers.Reshape((n, c))] on a (B, h, w, c) tensor: [h * w] must be
    [n]. *)
Definition Reshape_length (n : nat) (x : tensor4) : result tensor3 :=
  mapM (λ grid, let row := concat grid in
                if decide (length row = n)
                then Ok row
                else Raise (InvalidArgumentError "Reshape")) x.

(** [class Block] *)
Record Block : Type := {
  LN1 : tensor3 → tensor3;
  attention : tensor3 → tensor3;
  LN2 : tensor3 → tensor3;
  MLP : tensor3 → tensor3;
}.

Definition Block_call (self : Block) (encoded_patches : tensor3) : tensor3 :=
  let x1 := LN1 self encoded_patches in
  let attention_output := attention self x1 in
  let x2 := Add attention_output encoded_patches in
  let x3 := LN2 self x2 in
  let x3 := MLP self x3 in
  let out := Add x3 x2 in
  out.

(** [for block in blocks: x = block(x)] *)
Definition run_blocks (blocks : list Block) (x : tensor3) : tensor3 :=
  foldl (λ x block, Block_call block x) x blocks.

(** A layer that returns as many tokens for every batch element as it is
    given, as normalization and transformer blocks do. *)
Definition keeps_lengths (layer : tensor3 → tensor3) : Prop :=
  ∀ x, (λ tokens, length tokens) <$> layer x = (λ tokens, length tokens) <$> x.

(** [class PatchEmbed_layer] *)
Record PatchEmbed_layer : Type := {
  embed_dim : nat;
  num_patches : nat;
  add_pos : bool;
  projection : tensor4 → tensor4;
  patch_pos_embed : list token;
}.

Definition PatchEmbed_call (self : PatchEmbed_layer) (images : tensor4) : tensor3 :=
  let x := projection self images in
  let x := Reshape_tokens x in
  if add_pos self then add_broadcast x (patch_pos_embed self) else x.

(** [class AddPositionEmbed_layer] *)
Record AddPositionEmbed_layer : Type := {
  pos_embed : list token;
}.

Definition AddPositionEmbed_call (self : AddPositionEmbed_layer) (x : tensor3)
    : tensor3 :=
  add_broadcast x (pos_embed self).

(** [class AddCLSToken_layer]: [cls_token] is the one token of the
    variable of shape (1, 1, E). *)
Record AddCLSToken_layer : Type := {
  cls_token : token;
}.

(** [tf.tile(t, [n, 1, 1])] *)
Definition tile (t : tensor3) (n : nat) : tensor3 := concat (replicate n t).

(** [tf.concat([a, b], axis=1)] *)
Definition concat_axis1 (a b : tensor3) : tensor3 := zip_with app a b.

Definition AddCLSToken_call (self : AddCLSToken_layer) (x : tensor3) : tensor3 :=
  let batch_size := length x in
  concat_axis1 (tile [[cls_token self]] batch_size) x.

(** [x[:, 0]] *)
Definition position_0 (x : tensor3) : result (list token) :=
  mapM (λ row, match row with
               | t :: _ => Ok t
               | [] => Raise (InvalidArgumentError "slice index 0 out of bounds")
               end) x.

(** The layers of [transgan.vit_helper] and of the framework that [call]
    builds on the spot. *)
Class vit_helper : Type := {
  WindowPartition_layer : nat → tensor4 → tensor3;
  WindowReverse_layer : nat → nat → nat → tensor3 → tensor4;
  AveragePooling2D : nat → tensor4 → tensor4;
}.

(** [class discriminator]: the attributes [__init__] assigns. *)
Record discriminator : Type := {
  patch_size_1 : nat;
  patches_1 : PatchEmbed_layer;
  patches_2 : PatchEmbed_layer;
  patches_3 : PatchEmbed_layer;
  add_pos_embed_1 : AddPositionEmbed_layer;
  window_size : nat;
  blocks_1 : list Block;
  blocks_2 : list Block;
  blocks_21 : list Block;
  blocks_3 : list Block;
  add_cls_token : AddCLSToken_layer;
  blocks_last : list Block;
  layer_norm : tensor3 → tensor3;
  head : list token → list token;
}.

Section Call.
Context `{vit_helper}.

(** [call] up to the last block of [blocks_3]. *)
Definition multi_scale_tokens (self : discriminator) (input : tensor4)
    : result tensor3 :=
  let '(batch_size, height, width, channels) := shape4 input in
  let h := (height / patch_size_1 self)%nat in
  let w := (width / patch_size_1 self)%nat in

  let x_1 := PatchEmbed_call (patches_1 self) input in
  let x_2 := PatchEmbed_call (patches_2 self) input in
  let x_3 := PatchEmbed_call (patches_3 self) input in

  let x := AddPositionEmbed_call (add_pos_embed_1 self) x_1 in

  x ← Reshape_grid h w x;
  let x := WindowPartition_layer (window_size self) x in
  let x := run_blocks (blocks_1 self) x in
  let x := WindowReverse_layer (window_size self) h w x in

  let x := AveragePooling2D 2 x in
  let '(_, h, w, c) := shape4 x in

  let x := Reshape_tokens x in
  let x := Concatenate x x_2 in

  x ← Reshape_grid h w x;
  let x := WindowPartition_layer (window_size self) x in
  let x := run_blocks (blocks_2 self) x in
  let x := WindowReverse_layer (window_size self) h w x in
  x ← Reshape_length (h * w) x;
  let x := run_blocks (blocks_21 self) x in

  x ← Reshape_grid h w x;
  let x := AveragePooling2D 2 x in
  let '(_, h, w, c) := shape4 x in

  let x := Reshape_tokens x in
  let x := Concatenate x x_3 in

  let x := run_blocks (blocks_3 self) x in
  Ok x.

Definition call (self : discriminator) (input : tensor4)
    : result (list token) :=
  x ← multi_scale_tokens self input;

  let x := AddCLSToken_call (add_cls_token self) x in

  let x := run_blocks (blocks_last self) x in

  let x := layer_norm self x in
  x ← position_0 x;
  Ok (head self x).
End Call.

End TransGan.

(** ** Small instances for closed examples *)

Module Toy.
Local Open Scope R_scope.

(** A network with one scalar variable [k] that maps [x] to [k * x]. *)
Definition scale (k : R) : Model :=
  {| call := λ w _ x,
       match w with
       | [k] :: _ => Rmult k <$> x
       | _ => x
       end;
     trainable_variables := [[k]] |}.

(** A framework for the examples: every target is flat at the current
    variables and a step moves each variable by [- learning_rate * grad]. *)
#[local] Instance flat : Framework := {|
  gradient := λ _ w, zeros_like <$> w;
  apply_gradients := λ o gv,
    ({| learning_rate := learning_rate o; beta_1 := beta_1 o;
        beta_2 := beta_2 o; epsilon := epsilon o;
        iterations := S (iterations o); slots := slots o |},
     (λ '(g, v), zip_with (λ gi vi, vi - learning_rate o * gi) g v) <$> gv) |}.

Definition trainer : CycleGan.CycleGanTraining :=
  CycleGan.__init__ (scale 1) (scale 1) (scale 1) (scale 1)
    CycleGan.default_learning_rate CycleGan.default_beta_1
    CycleGan.default_beta_2 (Some "ckpt/cyclegan").

(** A ViT discriminator on 4x4 one-channel images: patches of 1, 2 and 4
    pixels, one window per image, and a pooling that keeps one value of
    each 2x2 window. *)
Fixpoint every_other {A} (l : list A) : list A :=
  match l with
  | a :: _ :: l => a :: every_other l
  | _ => []
  end.

Definition corner_pool (x : TransGan.tensor4) : TransGan.tensor4 :=
  (λ image, (λ row, every_other row) <$> every_other image) <$> x.

#[local] Instance one_window : TransGan.vit_helper := {|
  TransGan.WindowPartition_layer := λ _ x, TransGan.Reshape_tokens x;
  TransGan.WindowReverse_layer := λ _ h w x, TransGan.rows_of h w <$> x;
  TransGan.AveragePooling2D := λ _ x, corner_pool x |}.

Definition plain_block : TransGan.Block :=
  {| TransGan.LN1 := λ x, x; TransGan.attention := λ x, x;
     TransGan.LN2 := λ x, x; TransGan.MLP := λ x, x |}.

Definition vit : TransGan.discriminator :=
  {| TransGan.patch_size_1 := 1;
     TransGan.patches_1 :=
       {| TransGan.embed_dim := 1; TransGan.num_patches := 16;
          TransGan.add_pos := false; TransGan.projection := λ x, x;
          TransGan.patch_pos_embed := [] |};
     TransGan.patches_2 :=
       {| TransGan.embed_dim := 1; TransGan.num_patches := 4;
          TransGan.add_pos := false; TransGan.projection := corner_pool;
          TransGan.patch_pos_embed := [] |};
     TransGan.patches_3 :=
       {| TransGan.embed_dim := 1; TransGan.num_patches := 1;
          TransGan.add_pos := false;
          TransGan.projection := λ x, corner_pool (corner_pool x);
          TransGan.patch_pos_embed := [] |};
     TransGan.add_pos_embed_1 := {| TransGan.pos_embed := replicate 16 [0] |};
     TransGan.window_size := 4;
     TransGan.blocks_1 := [plain_block];
     TransGan.blocks_2 := [];
     TransGan.blocks_21 := [plain_block];
     TransGan.blocks_3 := [plain_block];
     TransGan.add_cls_token := {| TransGan.cls_token := [0; 0; 0] |};
     TransGan.blocks_last := [plain_block];
     TransGan.layer_norm := λ x, x;
     TransGan.head := λ x, (λ t, [reduce_sum t]) <$> x |}.

Definition image : TransGan.tensor4 := [replicate 4 (replicate 4 [1])].

End Toy.

(** ** The trainer with the two domains exchanged *)

Module Mirror.
Import CycleGan.

(** The same trainer seen from the other side: [generator_f] in the place
    of [generator_g], [discriminator_y] in the place of [discriminator_x],
    and their optimizers with them. *)
Definition mirror (self : CycleGanTraining) : CycleGanTraining :=
  {| generator_g := generator_f self;
     generator_f := generator_g self;
     discriminator_x := discriminator_y self;
     discriminator_y := discriminator_x self;
     LAMBDA := LAMBDA self;
     loss_obj := loss_obj self;
     generator_g_optimizer := generator_f_optimizer self;
     generator_f_optimizer := generator_g_optimizer self;
     discriminator_x_optimizer := discriminator_y_optimizer self;
     discriminator_y_optimizer := discriminator_x_optimizer self;
     checkpoint := checkpoint self;
     checkpoint_prefix := checkpoint_prefix self |}.

End Mirror.

(** ** Shapes and zeros of rank-3 tensors *)

Module Rank3.
Import TransGan.
Local Open Scope R_scope.

(** The number of values of every token of every batch element. *)
Definition shape_of (x : tensor3) : list (list nat) :=
  (λ tokens : list token, (λ t : token, length t) <$> tokens) <$> x.

(** [tf.zeros_like] *)
Definition zeros_like3 (x : tensor3) : tensor3 :=
  (λ tokens : list token, (λ t : token, (λ _ : R, 0) <$> t) <$> tokens) <$> x.

End Rank3.

(** ** Python outcomes of the construction code *)

Module Py.

Inductive error : Type :=
  | ValueError (what : string)
  | ZeroDivisionError
  | IndexError (what : string)
  | NotFoundError (what : string)
  | InvalidArgumentError (what : string)
  | StopIteration
  | TypeError (what : string)
  | OverflowError (what : string).

Inductive outcome (A : Type) : Type :=
  | Return (a : A)
  | Throw (e : error).
Arguments Return {A} a.
Arguments Throw {A} e.

#[global] Instance outcome_ret : MRet outcome := @Return.
#[global] Instance outcome_bind : MBind outcome := λ A B k m,
  match m with Return a => k a | Throw e => Throw e end.

(** [a // b] on non-negative integers *)
Definition floordiv (a b : nat) : outcome nat :=
  match b with
  | O => Throw ZeroDivisionError
  | _ => Return (a / b)
  end.

End Py.

(** ** The constructors of [transgan/build_discriminator.py] *)

Module ViTInit.
Import Py.

(** What [Block.__init__] passes to its attention and to its MLP. *)
Record Block : Type := {
  attention_dim : nat;
  attention_num_heads : nat;
  attention_qkv_bias : bool;
  attention_attn_p : R;
  attention_proj_p : R;
  MLP_hidden_units : list nat;
  MLP_dropout_rate : R;
  MLP_activation : string;
}.

Definition Block_init (embed_dim num_heads mlp_ratio : nat) (mlp_p : R)
    (qkv_bias : bool) (attn_p proj_p : R) (activation : string) : Block :=
  let hidden_units := [embed_dim * mlp_ratio; embed_dim] in
  {| attention_dim := embed_dim;
     attention_num_heads := num_heads;
     attention_qkv_bias := qkv_bias;
     attention_attn_p := attn_p;
     attention_proj_p := proj_p;
     MLP_hidden_units := hidden_units;
     MLP_dropout_rate := mlp_p;
     MLP_activation := "gelu" |}.

(** What [PatchEmbed_layer.__init__] keeps: the attributes and the
    arguments of the projecting convolution. *)
Record PatchEmbed_layer : Type := {
  embed_dim : nat;
  num_patches : nat;
  add_pos : bool;
  projection_kernel_size : nat;
  projection_strides : nat;
  projection_padding : string;
}.

Definition PatchEmbed_init (image_size : nat * nat)
    (patch_size embed_dim kernel_size : nat) (padding : string) (add_pos : bool)
    : outcome PatchEmbed_layer :=
  rows ← floordiv image_size.1 patch_size;
  columns ← floordiv image_size.2 patch_size;
  let num_patches := rows * columns in
  (** [Conv2D(filters=embed_dim, ...)]: the framework refuses a
      convolution without filters. *)
  if decide (embed_dim = 0) then Throw (ValueError "filters")
  else
    Return {| embed_dim := embed_dim;
              num_patches := num_patches;
              add_pos := add_pos;
              projection_kernel_size := kernel_size;
              projection_strides := patch_size;
              projection_padding := padding |}.

(** The attributes [discriminator.__init__] assigns. *)
Record discriminator : Type := {
  patch_size : nat;
  d_embed_dim : nat;
  embed_dim_1 : nat; embed_dim_2 : nat; embed_dim_3 : nat;
  patch_size_1 : nat; patch_size_2 : nat; patch_size_3 : nat;
  patches_1 : PatchEmbed_layer;
  patches_2 : PatchEmbed_layer;
  patches_3 : PatchEmbed_layer;
  (** number of patches and width of the three position embeddings *)
  add_pos_embed_1 : nat * nat;
  add_pos_embed_2 : nat * nat;
  add_pos_embed_3 : nat * nat;
  window_size : nat;
  blocks_1 : list Block;
  blocks_2 : list Block;
  blocks_21 : list Block;
  blocks_3 : list Block;
  (** width of the classification token *)
  add_cls_token : nat;
  blocks_last : list Block;
  (** units of the dense head *)
  head : nat;
}.

Definition __init__ (image_size : nat * nat)
    (depth num_classes embed_dim patch_size : nat) (mlp_p : R)
    (num_heads mlp_ratio : nat) (attn_p : R) (window_size : nat)
    : outcome discriminator :=
  let embed_dim_1 := embed_dim / 4 in
  let embed_dim_2 := embed_dim / 4 in
  let embed_dim_3 := embed_dim / 2 in

  let patch_size_1 := patch_size in
  let patch_size_2 := patch_size * 2 in
  let patch_size_3 := patch_size * 4 in

  patches_1 ← PatchEmbed_init image_size patch_size_1 embed_dim_1
                              (patch_size_1 * 2) "same" false;
  patches_2 ← PatchEmbed_init image_size patch_size_2 embed_dim_2
                              patch_size_2 "valid" false;
  patches_3 ← PatchEmbed_init image_size patch_size_3 embed_dim_3
                              patch_size_3 "valid" false;

  let num_patches_1 := num_patches patches_1 in
  let num_patches_2 := num_patches patches_2 in
  let num_patches_3 := num_patches patches_3 in

  Return
    {| patch_size := patch_size;
       d_embed_dim := embed_dim;
       embed_dim_1 := embed_dim_1;
       embed_dim_2 := embed_dim_2;
       embed_dim_3 := embed_dim_3;
       patch_size_1 := patch_size_1;
       patch_size_2 := patch_size_2;
       patch_size_3 := patch_size_3;
       patches_1 := patches_1;
       patches_2 := patches_2;
       patches_3 := patches_3;
       add_pos_embed_1 := (num_patches_1, embed_dim_1);
       add_pos_embed_2 := (num_patches_2, embed_dim_2);
       add_pos_embed_3 := (num_patches_3, embed_dim_3);
       window_size := window_size;
       blocks_1 :=
         replicate depth
           (Block_init embed_dim_1 num_heads mlp_ratio mlp_p false attn_p 0 "gelu");
       blocks_2 :=
         replicate (depth - 1)
           (Block_init (embed_dim_1 + embed_dim_2) num_heads mlp_ratio mlp_p false
                       attn_p 0 "gelu");
       blocks_21 :=
         replicate 1
           (Block_init (embed_dim_1 + embed_dim_2) num_heads mlp_ratio mlp_p false
                       attn_p 0 "gelu");
       blocks_3 :=
         replicate depth
           (Block_init embed_dim num_heads mlp_ratio mlp_p false attn_p 0 "gelu");
       add_cls_token := embed_dim;
       blocks_last :=
         [Block_init embed_dim num_heads mlp_ratio mlp_p false attn_p 0 "gelu"];
       head := num_classes |}.

End ViTInit.

(** ** Output shapes of layers, as the framework computes them *)

Module Shapes.
Import Py.

(** Output length of a convolution or pooling along one axis. *)
Definition dim_same (n stride : nat) : outcome nat :=
  match stride with
  | O => Throw (ValueError "strides")
  | _ => Return ((n + stride - 1) / stride)
  end.

Definition dim_valid (n kernel stride : nat) : outcome nat :=
  match stride, kernel with
  | O, _ => Throw (ValueError "strides")
  | _, O => Throw (ValueError "kernel_size")
  | _, _ =>
      (** [floor((n - kernel) / stride) + 1], refused when negative; it
          is 0 when the kernel is longer than the input by at most one
          stride. *)
      if decide (kernel ≤ n + stride) then Return ((n + stride - kernel) / stride)
      else Throw (ValueError "Computed output size would be negative")
  end.

Definition dim (padding : string) (n kernel stride : nat) : outcome nat :=
  if decide (padding = "same") then
    match kernel with
    | O => Throw (ValueError "kernel_size")
    | _ => dim_same n stride
    end
  else if decide (padding = "valid") then dim_valid n kernel stride
  else Throw (ValueError "padding").

(** Output length of a transposed convolution along one axis. *)
Definition dim_transpose (padding : string) (n kernel stride : nat) : outcome nat :=
  match stride, kernel with
  | O, _ => Throw (ValueError "strides")
  | _, O => Throw (ValueError "kernel_size")
  | _, _ =>
      if decide (padding = "same") then Return (n * stride)
      else if decide (padding = "valid") then Return (n * stride + (kernel - stride))
      else Throw (ValueError "padding")
  end.

(** [ceil(n / 2)] *)
Definition half_up (n : nat) : nat := (n + 1) / 2.

(** The shape (height, width, channels) a layer of the PatchGan builder
    gives for an input of shape [s]. *)
Fixpoint layer_shape (l : PatchGan.layer) (s : nat * nat * nat)
    : outcome (nat * nat * nat) :=
  let '(h, w, c) := s in
  match l with
  | PatchGan.Conv2D filters size strides padding _ =>
      h' ← dim padding h size strides;
      w' ← dim padding w size strides;
      Return (h', w', filters)
  | PatchGan.BatchNormalization => Return s
  | PatchGan.InstanceNormalization => Return s
  | PatchGan.LeakyReLU => Return s
  | PatchGan.ZeroPadding2D => Return (h + 2, w + 2, c)
  | PatchGan.Sequential layers =>
      (fix run (layers : list PatchGan.layer) (s : nat * nat * nat) :=
         match layers with
         | [] => Return s
         | l :: layers => s ← layer_shape l s; run layers s
         end) layers s
  end.

(** [concatenate] along the last axis: the other axes must agree. *)
Fixpoint concatenate_shapes (shapes : list (nat * nat * nat))
    : outcome (nat * nat * nat) :=
  match shapes with
  | [] => Throw (ValueError "concatenate")
  | [s] => Return s
  | (h, w, c) :: shapes =>
      '(h', w', c') ← concatenate_shapes shapes;
      if decide (h = h' ∧ w = w') then Return (h, w, c + c')
      else Throw (ValueError "concatenate")
  end.

(** The shape of a symbolic tensor when every input of the model is fed an
    image of shape [image]. *)
Fixpoint node_shape (image : nat * nat * nat) (x : PatchGan.node)
    : outcome (nat * nat * nat) :=
  match x with
  | PatchGan.Input _ =>
      (** [shape=[None, None, 3]] *)
      if decide (image.2 = 3) then Return image
      else Throw (ValueError "input shape")
  | PatchGan.concatenate inputs =>
      shapes ← (fix each (inputs : list PatchGan.node) :=
                  match inputs with
                  | [] => Return []
                  | x :: inputs =>
                      s ← node_shape image x;
                      shapes ← each inputs;
                      Return (s :: shapes)
                  end) inputs;
      concatenate_shapes shapes
  | PatchGan.Call l x => s ← node_shape image x; layer_shape l s
  end.

End Shapes.

(** ** The U-Net generator builder of [CycleGan.py] *)

Module UNet.
Import Py.

#[local] Unset Elimination Schemes.

(** The layers of the generator: the ones the discriminator builder uses
    too, and those of [upsample]. *)
Inductive layer : Type :=
  | Keras (l : PatchGan.layer)
  | Conv2DTranspose (filters size strides : nat) (padding : string)
      (use_bias : bool) (activation : option string)
  | Dropout (rate : R)
  | ReLU
  | Sequential (layers : list layer).

Inductive node : Type :=
  | Input
  | Concatenate (inputs : list node)
  | Call (l : layer) (x : node).

#[local] Set Elimination Schemes.

Record KerasModel : Type := {
  inputs : node;
  outputs : node;
}.

Definition downsample (filters size : nat) (norm_type : string)
    (apply_norm : bool) : layer :=
  Keras (PatchGan.downsample filters size norm_type apply_norm).

Definition upsample (filters size : nat) (norm_type : string)
    (apply_dropout : bool) : layer :=
  let result := [Conv2DTranspose filters size 2 "same" false None] in
  let result :=
    if decide (PatchGan.lower norm_type = "batchnorm") then
      result ++ [Keras PatchGan.BatchNormalization]
    else if decide (PatchGan.lower norm_type = "instancenorm") then
      result ++ [Keras PatchGan.InstanceNormalization]
    else result in
  let result := if apply_dropout then result ++ [Dropout 0.5%R] else result in
  let result := result ++ [ReLU] in
  Sequential result.

Definition unet_generator (output_channels : nat) (norm_type : string)
    : outcome KerasModel :=
  let down_stack := [
    downsample 64 4 norm_type false;
    downsample 128 4 norm_type true;
    downsample 256 4 norm_type true;
    downsample 512 4 norm_type true;
    downsample 512 4 norm_type true;
    downsample 512 4 norm_type true;
    downsample 512 4 norm_type true;
    downsample 512 4 norm_type true
  ] in
  let up_stack := [
    upsample 512 4 norm_type true;
    upsample 512 4 norm_type true;
    upsample 512 4 norm_type true;
    upsample 512 4 norm_type false;
    upsample 256 4 norm_type false;
    upsample 128 4 norm_type false;
    upsample 64 4 norm_type false
  ] in
  (** the framework refuses a convolution without filters *)
  last ←
    (if decide (output_channels = 0) then Throw (ValueError "filters")
     else Return (Conv2DTranspose output_channels 4 2 "same" true
                    (Some "tanh")));
  let inputs := Input in
  let x := inputs in
  (** [for down in down_stack] *)
  let '(x, skips) :=
    foldl (λ '(x, skips) down, let x := Call down x in (x, skips ++ [x]))
          (x, []) down_stack in
  (** [reversed(skips[:-1])] *)
  let skips := reverse (removelast skips) in
  (** [for up, skip in zip(up_stack, skips)] *)
  let x :=
    foldl (λ x '(up, skip), let x := Call up x in Concatenate [x; skip])
          x (zip up_stack skips) in
  let x := Call last x in
  Return {| inputs := inputs; outputs := x |}.

(** The shape a layer gives for an input of shape [s]. *)
Fixpoint layer_shape (l : layer) (s : nat * nat * nat)
    : outcome (nat * nat * nat) :=
  let '(h, w, c) := s in
  match l with
  | Keras l => Shapes.layer_shape l s
  | Conv2DTranspose filters size strides padding _ _ =>
      h' ← Shapes.dim_transpose padding h size strides;
      w' ← Shapes.dim_transpose padding w size strides;
      Return (h', w', filters)
  | Dropout _ => Return s
  | ReLU => Return s
  | Sequential layers =>
      (fix run (layers : list layer) (s : nat * nat * nat) :=
         match layers with
         | [] => Return s
         | l :: layers => s ← layer_shape l s; run layers s
         end) layers s
  end.

(** The shape of a symbolic tensor when the model is fed an image of
    shape [image]. *)
Fixpoint node_shape (image : nat * nat * nat) (x : node)
    : outcome (nat * nat * nat) :=
  match x with
  | Input =>
      (** [shape=[None, None, 3]] *)
      if decide (image.2 = 3) then Return image
      else Throw (ValueError "input shape")
  | Concatenate inputs =>
      shapes ← (fix each (inputs : list node) :=
                  match inputs with
                  | [] => Return []
                  | x :: inputs =>
                      s ← node_shape image x;
                      shapes ← each inputs;
                      Return (s :: shapes)
                  end) inputs;
      Shapes.concatenate_shapes shapes
  | Call l x => s ← node_shape image x; layer_shape l s
  end.

End UNet.

(** ** The builders of [resnet/ResNet.py] *)

Module ResNet.
Import Py.

(** [needle in haystack] on strings *)
Fixpoint contains (needle haystack : string) : bool :=
  String.prefix needle haystack
  || match haystack with
     | EmptyString => false
     | String _ rest => contains needle rest
     end.

(** [l[i]] *)
Definition index (l : list nat) (i : nat) : outcome nat :=
  match l !! i with
  | Some x => Return x
  | None => Throw (IndexError "list index out of range")
  end.

(** [if pooling:] on [None] or a string *)
Definition truthy (pooling : option string) : bool :=
  match pooling with
  | None => false
  | Some s => if decide (s = "") then false else true
  end.

(** The layers the builders create, each with the arguments it is given;
    tuples and lists of sizes are lists. *)
Inductive layer : Type :=
  | Dense (units : nat) (use_bias : bool) (input_dim : option nat)
  | Input (shape : nat)
  | Reshape (target_shape : list nat)
  | Conv2DTranspose (filters : nat) (kernel_size strides : list nat)
      (padding : string) (use_bias : bool) (activation : option string)
  | Conv2D (filters : nat) (kernel_size strides : list nat)
      (padding : string) (input_shape : option (list nat))
  | BatchNormalization
  | LeakyReLU
  | ReLU
  | Dropout (rate : R)
  | MaxPooling2D (pool_size : list nat)
  | AveragePooling2D (pool_size : list nat)
  | Flatten
  | GlobalAveragePooling2D
  | ResNet_Block (filter_size : nat) (kernel_size strides : list nat)
  | SEResNet_Block (filter_size : nat) (kernel_size strides : list nat).

(** [isinstance(layer, SEResNet_Block)] *)
Definition is_SEResNet_Block (l : layer) : bool :=
  match l with SEResNet_Block _ _ _ => true | _ => false end.

(** [isinstance(layer, ResNet_Block)] *)
Definition is_ResNet_Block (l : layer) : bool :=
  match l with ResNet_Block _ _ _ => true | _ => false end.

(** What [tf.keras.layers.Input] returns is a symbolic tensor, not a
    layer. *)
Definition is_Input (l : layer) : bool :=
  match l with Input _ => true | _ => false end.

(** A kernel size or strides the framework takes: two positive sizes. *)
Definition valid_size (size : list nat) : bool :=
  match size with
  | [a; b] => (0 <? a) && (0 <? b)
  | _ => false
  end.

(** The constructor of a layer.  A convolution refuses a number of filters
    that is not positive and a kernel size or strides that are not two
    positive sizes; [ResNet_Block] and [SEResNet_Block] construct their
    convolutions, with the arguments they are given, in [__init__]. *)
Definition construct (l : layer) : outcome layer :=
  match l with
  | Conv2DTranspose filters kernel_size strides _ _ _
  | Conv2D filters kernel_size strides _ _
  | ResNet_Block filters kernel_size strides
  | SEResNet_Block filters kernel_size strides =>
      if decide (filters = 0) then Throw (ValueError "filters")
      else if valid_size kernel_size && valid_size strides then Return l
      else Throw (ValueError "kernel_size")
  | _ => Return l
  end.

(** [build_generator]: the arguments of [model.add], in order.  The model
    knows its input from the first layer, so a layer is built on the shape
    it receives as it is added, and the convolutions need an image of two
    sides and channels. *)
Definition build_generator (latent_dim : nat) (image_size : list nat)
    (channels num_filters : nat) (gen_kernel_size : list nat)
    (activation : string) (dense : bool) (resnet : string)
    : outcome (list layer) :=
  let project_size := (λ x, x / 16) <$> image_size in
  let project_shape := project_size ++ [num_filters * 16] in
  p0 ← index project_size 0;
  p1 ← index project_size 1;
  let dense_units := p0 * p1 * num_filters * 16 in

  let model := [] in

  model ←
    (if dense then
       Return (model ++ [Dense dense_units false (Some latent_dim)])
     else
       conv ← construct (Conv2DTranspose (num_filters * 16) project_size
                           [1; 1] "valid" false None);
       Return (model ++ [Input latent_dim] ++ [Reshape [1; 1; latent_dim]]
                     ++ [conv]));
  let model := model ++ [BatchNormalization] in
  let activation_layer :=
    if decide ("leakyrelu" = PatchGan.lower activation) then LeakyReLU
    else ReLU in
  let model := model ++ [activation_layer] in
  model ←
    (if decide (length project_shape = 3) then
       Return (model ++ [Reshape project_shape])
     else Throw (ValueError "incompatible shape"));

  model ←
    (if contains "se" (PatchGan.lower resnet) then Return model
     else if contains "res" (PatchGan.lower resnet) then
       block ← construct (ResNet_Block (num_filters * 16) [3; 3] [1; 1]);
       Return (model ++ [block])
     else Return model);

  conv ← construct (Conv2DTranspose (num_filters * 8) gen_kernel_size [2; 2]
                      "same" false None);
  let model := model ++ [conv] in
  let model := model ++ [BatchNormalization] in
  let activation_layer :=
    if decide ("leakyrelu" = PatchGan.lower activation) then LeakyReLU
    else ReLU in
  let model := model ++ [activation_layer] in

  conv ← construct (Conv2DTranspose (num_filters * 4) gen_kernel_size [2; 2]
                      "same" false None);
  let model := model ++ [conv] in
  let model := model ++ [BatchNormalization] in
  let activation_layer :=
    if decide ("leakyrelu" = PatchGan.lower activation) then LeakyReLU
    else ReLU in
  let model := model ++ [activation_layer] in

  conv ← construct (Conv2DTranspose (num_filters * 2) gen_kernel_size [2; 2]
                      "same" false None);
  let model := model ++ [conv] in
  let model := model ++ [BatchNormalization] in
  let activation_layer :=
    if decide ("leakyrelu" = PatchGan.lower activation) then LeakyReLU
    else ReLU in
  let model := model ++ [activation_layer] in

  conv ← construct (Conv2DTranspose channels gen_kernel_size [2; 2]
                      "same" false (Some "tanh"));
  let model := model ++ [conv] in

  Return model.

(** The pooling layer after a convolution of the discriminators:
    [if pooling == 'max': ... elif pooling: ...]. *)
Definition pool (pooling : option string) (model : list layer) : list layer :=
  if decide (pooling = Some "max") then model ++ [MaxPooling2D [2; 2]]
  else if truthy pooling then model ++ [AveragePooling2D [2; 2]]
  else model.


(** [[block for _ in range(n)]]: the block is constructed [n] times. *)
Fixpoint comprehension (n : nat) (block : layer) : outcome (list layer) :=
  match n with
  | 0 => Return []
  | S n =>
      b ← construct block;
      rest ← comprehension n block;
      Return (b :: rest)
  end.

(** The blocks [num_blocks[i]] asks for after a convolution of [filters]
    filters. *)
Definition res_block (resnet : string) (num_blocks : list nat) (i : nat)
    (filters : nat) : outcome (list layer) :=
  if contains "se" (PatchGan.lower resnet) then
    n ← index num_blocks i;
    comprehension n (SEResNet_Block filters [3; 3] [1; 1])
  else if contains "res" (PatchGan.lower resnet) then
    n ← index num_blocks i;
    comprehension n (ResNet_Block filters [3; 3] [1; 1])
  else Return [].

(** [class SEResNet_generator] *)
Record SEResNet_generator : Type := {
  g_initial_block : list layer;
  g_res_block1 : list layer;
  g_conv_block1 : list layer;
  g_res_block2 : list layer;
  g_conv_block2 : list layer;
  g_res_block3 : list layer;
  g_conv_block3 : list layer;
  g_conv_block4 : list layer;
}.

Definition SEResNet_generator_init (latent_dim : nat) (image_size : list nat)
    (channels num_filters : nat) (gen_kernel_size : list nat)
    (activation : string) (dense : bool) (resnet : string)
    (num_blocks : list nat) : outcome SEResNet_generator :=
  let project_size := (λ x, x / 16) <$> image_size in
  let project_shape := project_size ++ [num_filters * 16] in
  p0 ← index project_size 0;
  p1 ← index project_size 1;
  let dense_units := p0 * p1 * num_filters * 16 in

  initial_block ←
    (if dense then Return [Dense dense_units false (Some latent_dim)]
     else
       conv ← construct (Conv2DTranspose (num_filters * 16) project_size
                           [1; 1] "valid" false None);
       Return [Input latent_dim; Reshape [1; 1; latent_dim]; conv]);

  let norm := BatchNormalization in
  let act :=
    if decide ("leakyrelu" = PatchGan.lower activation) then LeakyReLU
    else ReLU in
  let reshape := Reshape project_shape in

  let initial_block := initial_block ++ [norm; act; reshape] in

  res_block1 ← res_block resnet num_blocks 0 (num_filters * 16);

  conv ← construct (Conv2DTranspose (num_filters * 8) gen_kernel_size [2; 2]
                      "same" false None);
  let norm := BatchNormalization in
  let act :=
    if decide ("leakyrelu" = PatchGan.lower activation) then LeakyReLU
    else ReLU in
  let conv_block1 := [conv; norm; act] in

  res_block2 ← res_block resnet num_blocks 1 (num_filters * 8);

  conv ← construct (Conv2DTranspose (num_filters * 4) gen_kernel_size [2; 2]
                      "same" false None);
  let norm := BatchNormalization in
  let act :=
    if decide ("leakyrelu" = PatchGan.lower activation) then LeakyReLU
    else ReLU in
  let conv_block2 := [conv; norm; act] in

  res_block3 ← res_block resnet num_blocks 2 (num_filters * 4);

  conv ← construct (Conv2DTranspose (num_filters * 2) gen_kernel_size [2; 2]
                      "same" false None);
  let norm := BatchNormalization in
  let act :=
    if decide ("leakyrelu" = PatchGan.lower activation) then LeakyReLU
    else ReLU in
  let conv_block3 := [conv; norm; act] in

  conv ← construct (Conv2DTranspose channels gen_kernel_size [2; 2] "same"
                      false (Some "tanh"));
  let conv_block4 := [conv] in

  Return {| g_initial_block := initial_block;
            g_res_block1 := res_block1;
            g_conv_block1 := conv_block1;
            g_res_block2 := res_block2;
            g_conv_block2 := conv_block2;
            g_res_block3 := res_block3;
            g_conv_block3 := conv_block3;
            g_conv_block4 := conv_block4 |}.

(** [class SEResNet_discriminator] *)
Record SEResNet_discriminator : Type := {
  d_conv_block1 : list layer;
  d_res_block1 : list layer;
  d_conv_block2 : list layer;
  d_res_block2 : list layer;
  d_conv_block3 : list layer;
  d_res_block3 : list layer;
  d_conv_block4 : list layer;
  d_res_block4 : list layer;
  d_header_block : list layer;
}.

Definition SEResNet_discriminator_init (image_size : list nat)
    (channels num_filters : nat) (disc_kernel_size : list nat)
    (dropout_rate : R) (batchnorm dropout dense : bool)
    (pooling : option string) (resnet : string) (num_blocks : list nat)
    : outcome SEResNet_discriminator :=
  let input_shape := image_size ++ [channels] in

  let strides := if truthy pooling then [1; 1] else [2; 2] in

  conv ← construct (Conv2D num_filters disc_kernel_size strides "same"
                      (Some input_shape));
  let conv_block1 := [conv] in
  let conv_block1 := pool pooling conv_block1 in
  let conv_block1 := conv_block1 ++ [LeakyReLU] in
  let conv_block1 :=
    if dropout then conv_block1 ++ [Dropout dropout_rate] else conv_block1 in

  res_block1 ← res_block resnet num_blocks 0 num_filters;

  conv ← construct (Conv2D (num_filters * 2) disc_kernel_size strides "same"
                      None);
  let conv_block2 := [conv] in
  let conv_block2 := pool pooling conv_block2 in
  let conv_block2 :=
    if batchnorm then conv_block2 ++ [BatchNormalization] else conv_block2 in
  let conv_block2 := conv_block2 ++ [LeakyReLU] in
  let conv_block2 :=
    if dropout then conv_block2 ++ [Dropout dropout_rate] else conv_block2 in

  res_block2 ← res_block resnet num_blocks 1 (num_filters * 2);

  conv ← construct (Conv2D (num_filters * 4) disc_kernel_size strides "same"
                      None);
  let conv_block3 := [conv] in
  let conv_block3 := pool pooling conv_block3 in
  let conv_block3 :=
    if batchnorm then conv_block3 ++ [BatchNormalization] else conv_block3 in
  let conv_block3 := conv_block3 ++ [LeakyReLU] in
  let conv_block3 :=
    if dropout then conv_block3 ++ [Dropout dropout_rate] else conv_block3 in

  res_block3 ← res_block resnet num_blocks 2 (num_filters * 4);

  conv ← construct (Conv2D (num_filters * 8) disc_kernel_size strides "same"
                      None);
  let conv_block4 := [conv] in
  let conv_block4 := pool pooling conv_block4 in
  let conv_block4 :=
    if batchnorm then conv_block4 ++ [BatchNormalization] else conv_block4 in
  let conv_block4 := conv_block4 ++ [LeakyReLU] in
  let conv_block4 :=
    if dropout then conv_block4 ++ [Dropout dropout_rate] else conv_block4 in

  res_block4 ← res_block resnet num_blocks 3 (num_filters * 8);

  header_block ←
    (if dense then Return [Flatten; Dense 1 true None]
     else
       conv ← construct (Conv2D 1 disc_kernel_size [2; 2] "valid" None);
       Return [conv; GlobalAveragePooling2D]);

  Return {| d_conv_block1 := conv_block1;
            d_res_block1 := res_block1;
            d_conv_block2 := conv_block2;
            d_res_block2 := res_block2;
            d_conv_block3 := conv_block3;
            d_res_block3 := res_block3;
            d_conv_block4 := conv_block4;
            d_res_block4 := res_block4;
            d_header_block := header_block |}.

Section Call.
Context {tensor : Type} (apply : layer → tensor → tensor).

(** [layer(x)] on an entry of a block: what [tf.keras.layers.Input]
    returned cannot be called. *)
Definition call_layer (l : layer) (x : tensor) : outcome tensor :=
  if is_Input l then Throw (TypeError "'KerasTensor' object is not callable")
  else Return (apply l x).

(** [for layer in block: x = layer(x)] *)
Fixpoint run (block : list layer) (x : tensor) : outcome tensor :=
  match block with
  | [] => Return x
  | l :: block => x ← call_layer l x; run block x
  end.



End Call.

(** The entries of the blocks of the two classes in the order [call] goes
    through them. *)
Definition generator_layers (self : SEResNet_generator) : list layer :=
  g_initial_block self ++ g_res_block1 self ++ g_conv_block1 self
  ++ g_res_block2 self ++ g_conv_block2 self ++ g_res_block3 self
  ++ g_conv_block3 self ++ g_conv_block4 self.


End ResNet.

(** ** [class SE_Block] of [resnet/ResNet.py] *)

Module SEBlock.
Import Py.
Local Open Scope R_scope.

(** [tf.nn.relu] and the sigmoid *)
Definition relu (v : R) : R := Rmax v 0.
Definition sigmoid (v : R) : R := / (1 + exp (- v)).

(** A [layers.Dense] after build: [kernel] holds one row per input value,
    in each row one weight per unit, and [bias] one value per unit. *)
Record Dense : Type := {
  kernel : list (list R);
  bias : list R;
}.

Definition Dense_call (activation : R → R) (self : Dense) (x : list R)
    : outcome (list R) :=
  if decide (length x = length (kernel self)) then
    Return
      (imap (λ j b,
               activation
                 (reduce_sum
                    (zip_with (λ v row, v * default 0 (row !! j)) x
                       (kernel self)) + b))
            (bias self))
  else Throw (ValueError "Dense: incompatible input shape").

(** The block after build; [__init__] makes [dens1] a relu layer and
    [dens2] a sigmoid layer of [num_filters] units. *)
Record SE_Block : Type := {
  num_filters : nat;
  dens1 : Dense;
  dens2 : Dense;
}.

(** The values of channel [c] of one element of a batch, over the two
    spatial axes. *)
Definition channel (c : nat) (x : list (list (list R))) : list R :=
  (λ pixel : list R, default 0 (pixel !! c)) <$> concat x.

(** [layers.GlobalAveragePooling2D] on one element of a batch of shape
    (B, H, W, channels). *)
Definition GlobalAveragePooling2D (channels : nat)
    (element : list (list (list R))) : list R :=
  (λ c, reduce_mean (channel c element)) <$> seq 0 channels.

(** [layers.Multiply] of an element of [channels] channels by a tensor of
    shape (1, 1, F), with the broadcasting of the framework. *)
Definition Multiply (channels : nat) (element : list (list (list R)))
    (x : list R) : outcome (list (list (list R))) :=
  if decide (channels = length x) then
    Return ((λ row : list (list R),
               (λ pixel : list R, zip_with Rmult pixel x) <$> row) <$> element)
  else if decide (length x = 1%nat) then
    Return ((λ row : list (list R),
               (λ pixel : list R,
                  (λ v, v * default 0 (x !! 0%nat)) <$> pixel) <$> row)
            <$> element)
  else if decide (channels = 1%nat) then
    Return ((λ row : list (list R),
               (λ pixel : list R,
                  (λ g, default 0 (pixel !! 0%nat) * g) <$> x) <$> row)
            <$> element)
  else Throw (ValueError "Multiply: incompatible shapes").

Definition call_element (self : SE_Block) (channels : nat)
    (input : list (list (list R))) : outcome (list (list (list R))) :=
  let x := GlobalAveragePooling2D channels input in
  x ← Dense_call relu (dens1 self) x;
  x ← Dense_call sigmoid (dens2 self) x;
  (** [Reshape((1, 1, num_filters))] *)
  x ← (if decide (length x = num_filters self) then Return x
       else Throw (ValueError "Reshape"));
  Multiply channels input x.

(** [call] on a batch of shape (B, H, W, channels). *)
Fixpoint call (self : SE_Block) (channels : nat)
    (input : list (list (list (list R))))
    : outcome (list (list (list (list R)))) :=
  match input with
  | [] => Return []
  | element :: input =>
      element ← call_element self channels element;
      input ← call self channels input;
      Return (element :: input)
  end.

End SEBlock.

(** ** Loading and augmenting the images, [CycleGan.py] *)

Module Data.
Import Py SpecFloat PrimFloat FloatOps.

(** An image is its rows of pixels, a pixel its channel values; an element
    of a dataset is a stack of images. *)
Abbreviation image := (list (list (list R))).

(** [x] has [h] rows of [w] pixels. *)
Definition has_shape (h w : nat) (x : image) : Prop :=
  length x = h ∧ Forall (λ row, length row = w) x.

(** Python's floats are binary64 numbers.  An integer that meets a float
    in a product is converted first, to the nearest float, ties to even. *)
Definition float_of_int (x : Z) : outcome float :=
  match binary_normalize prec emax x 0 false with
  | S754_infinity _ =>
      Throw (OverflowError "int too large to convert to float")
  | f => Return (SF2Prim f)
  end.

(** Python's [int] of a float: towards zero. *)
Definition int (f : float) : outcome Z :=
  match Prim2SF f with
  | S754_nan => Throw (ValueError "cannot convert float NaN to integer")
  | S754_infinity _ =>
      Throw (OverflowError "cannot convert float infinity to integer")
  | S754_zero _ => Return 0%Z
  | S754_finite s m e =>
      let magnitude := Z.shiftl (Z.pos m) e in
      Return (if s then - magnitude else magnitude)%Z
  end.

(** [int(x*expand)] for an integer [x] and a float [expand] *)
Definition int_times (x : nat) (expand : float) : outcome Z :=
  x ← float_of_int (Z.of_nat x);
  int (x * expand)%float.

(** What the functions take from outside: [draws i] is the i-th raw draw
    of numpy's generator, [read_image path channels] is
    [tf.io.decode_image(tf.io.read_file(path), channels, float32)]. *)
Class Environment : Type := {
  draws : nat → nat;
  read_image : string → nat → outcome image;
  get_file : string → string → outcome string;
  resize : image → Z * Z → outcome image;
}.

(** Code that draws random numbers: from the number of draws made so far
    to a result and the number of draws made then. *)
Definition Rand (A : Type) : Type := nat → outcome (A * nat).

#[global] Instance Rand_ret : MRet Rand := λ A a made, Return (a, made).
#[global] Instance Rand_bind : MBind Rand := λ A B k m made,
  match m made with
  | Return (a, made) => k a made
  | Throw e => Throw e
  end.

Definition lift {A} (m : outcome A) : Rand A := λ made,
  match m with
  | Return a => Return (a, made)
  | Throw e => Throw e
  end.

(** [dataset.map(f)] on a dataset of stacks. *)
Fixpoint traverse {A B} (f : A → outcome B) (l : list A) : outcome (list B) :=
  match l with
  | [] => Return []
  | a :: l => b ← f a; l ← traverse f l; Return (b :: l)
  end.

Definition map_images (f : image → outcome image)
    (dataset : list (list image)) : outcome (list (list image)) :=
  traverse (traverse f) dataset.

(** [os.path.basename(path)]: what follows the last slash. *)
Fixpoint basename_from (current path : string) : string :=
  match path with
  | EmptyString => String.rev current
  | String c path =>
      if decide (c = "/"%char) then basename_from EmptyString path
      else basename_from (String c current) path
  end.

Definition basename (path : string) : string := basename_from EmptyString path.

(** [s[-128:]] *)
Definition last_128 (s : string) : string :=
  String.substring (String.length s - 128) 128 s.

(** [tf.image.crop_to_bounding_box] *)
Definition crop_to_bounding_box (x : image)
    (offset_height offset_width : Z) (target_height target_width : nat)
    : outcome image :=
  let height := length x in
  let width := length (hd [] x) in
  if decide (0 ≤ offset_width)%Z then
    if decide (0 ≤ offset_height)%Z then
      if decide (0 < target_width)%nat then
        if decide (0 < target_height)%nat then
          if decide (Z.of_nat target_width + offset_width ≤ Z.of_nat width)%Z then
            if decide (Z.of_nat target_height + offset_height ≤ Z.of_nat height)%Z then
              Return ((λ row : list (list R),
                         take target_width (drop (Z.to_nat offset_width) row))
                      <$> take target_height (drop (Z.to_nat offset_height) x))
            else Throw (ValueError "height must be >= target + offset.")
          else Throw (ValueError "width must be >= target + offset.")
        else Throw (ValueError "target_height must be > 0.")
      else Throw (ValueError "target_width must be > 0.")
    else Throw (ValueError "offset_height must be >= 0.")
  else Throw (ValueError "offset_width must be >= 0.").

(** [tf.image.flip_left_right] *)
Definition flip_left_right (x : image) : image := (λ row, reverse row) <$> x.

(** [dataset.batch(batch_size)]: the elements in order, a batch whenever
    [batch_size] of them have come, and what is left at the end. *)
Fixpoint batches {A} (batch_size : nat) (current : list A) (dataset : list A)
    : list (list A) :=
  match dataset with
  | [] => match current with [] => [] | _ => [current] end
  | a :: dataset =>
      let current := current ++ [a] in
      if decide (length current = batch_size) then
        current :: batches batch_size [] dataset
      else batches batch_size current dataset
  end.

Definition batch {A} (batch_size : nat) (dataset : list A)
    : outcome (list (list A)) :=
  match batch_size with
  | O => Throw (InvalidArgumentError "Batch size must be greater than zero.")
  | _ => Return (batches batch_size [] dataset)
  end.

Section Functions.
Context `{Environment}.

(** [np.random.randint(low, high)], of 64-bit integers *)
Definition randint (low high : Z) : Rand Z := λ made,
  if decide (low < - 2 ^ 63)%Z then
    Throw (ValueError "low is out of bounds for int64")
  else if decide (2 ^ 63 < high)%Z then
    Throw (ValueError "high is out of bounds for int64")
  else if decide (high ≤ low)%Z then Throw (ValueError "low >= high")
  else Return ((low + Z.of_nat (draws made) mod (high - low))%Z, S made).

Definition load_image (image_path : string) (channels : nat) : outcome image :=
  image_path ←
    (if ResNet.contains "http" image_path then
       get_file (last_128 (basename image_path)) image_path
     else Return image_path);

  image ← read_image image_path channels;
  let image :=
    (λ row : list (list R),
       (λ pixel : list R, (λ v, v * 2 - 1)%R <$> pixel) <$> row)
    <$> (image : list (list (list R))) in
  Return image.

Definition random_crop_images (dataset : list (list image))
    (image_size : nat * nat) (expand : float) : Rand (list (list image)) :=
  let '(height, width) := image_size in
  ex_height ← lift (int_times height expand);
  ex_width ← lift (int_times width expand);
  let ex_size := (ex_height, ex_width) in
  offset_height ← randint 0 (ex_height - Z.of_nat height);
  offset_width ← randint 0 (ex_width - Z.of_nat width);

  dataset ← lift (map_images (λ x, resize x ex_size) dataset);
  dataset ← lift (map_images
                    (λ x, crop_to_bounding_box x offset_height offset_width
                            height width) dataset);
  mret dataset.

Definition random_flip_left_right_images (dataset : list (list image))
    : Rand (list (list image)) :=
  flip ← randint 0 2;
  if decide (flip = 0%Z) then mret dataset
  else mret ((λ stack : list image, flip_left_right <$> stack) <$> dataset).

(** [for _ in range(aug_num)] *)
Fixpoint augment (aug_num : nat) (image_x image_y : image)
    (image_size : nat * nat) (expand : float)
    (datasets : list image * list image) : Rand (list image * list image) :=
  match aug_num with
  | O => mret datasets
  | S aug_num =>
      let '(dataset_x, dataset_y) := datasets in
      let dataset_aug := [[image_x; image_y]] in
      dataset_aug ← random_crop_images dataset_aug image_size expand;
      dataset_aug ← random_flip_left_right_images dataset_aug;
      (** [x, y = next(iter(dataset_aug))] *)
      match dataset_aug with
      | [x; y] :: _ =>
          augment aug_num image_x image_y image_size expand
            (dataset_x ++ [x], dataset_y ++ [y])
      | [] => lift (Throw StopIteration)
      | _ :: _ => lift (Throw (ValueError "unpack"))
      end
  end.

(** [for path_x, path_y in zip(paths_x, paths_y)] *)
Fixpoint load_pairs (paths : list (string * string))
    (image_size : nat * nat) (channels aug_num : nat) (expand : float)
    (datasets : list image * list image) : Rand (list image * list image) :=
  match paths with
  | [] => mret datasets
  | (path_x, path_y) :: paths =>
      let size := (Z.of_nat image_size.1, Z.of_nat image_size.2) in
      image_x ← lift (image ← load_image path_x channels; resize image size);
      image_y ← lift (image ← load_image path_y channels; resize image size);
      datasets ← augment aug_num image_x image_y image_size expand datasets;
      load_pairs paths image_size channels aug_num expand datasets
  end.

Definition load_and_preprocessing_data (paths_x paths_y : list string)
    (image_size : nat * nat) (batch_size channels aug_num : nat) (expand : float)
    : Rand (list (list image) * list (list image)) :=
  let dataset_x := [] in
  let dataset_y := [] in
  '(dataset_x, dataset_y) ←
    load_pairs (zip paths_x paths_y) image_size channels aug_num expand
      (dataset_x, dataset_y);

  let buffer_size := length dataset_x in

  dataset_x ← lift (batch batch_size dataset_x);
  dataset_y ← lift (batch batch_size dataset_y);

  mret (dataset_x, dataset_y).

(** What the framework's resizing returns has the size asked for. *)
Definition resize_shape : Prop :=
  ∀ (x : image) (h w : Z) (y : image),
    resize x (h, w) = Return y → has_shape (Z.to_nat h) (Z.to_nat w) y.

(** [image] is what the loop body makes of the file at [path]. *)
Definition loaded (image_size : nat * nat) (channels : nat) (path : string)
    (image : image) : Prop :=
  (image ← load_image path channels;
   resize image (Z.of_nat image_size.1, Z.of_nat image_size.2))
  = Return image.

(** [y] is [x] resized to the expanded size, cropped at the given offsets
    inside it and flipped if [flip]. *)
Definition augmented (image_size : nat * nat) (expand : float)
    (offset_height offset_width : nat) (flip : bool) (x y : image) : Prop :=
  ∃ ex_height ex_width,
    int_times image_size.1 expand = Return ex_height
    ∧ int_times image_size.2 expand = Return ex_width
    ∧ (Z.of_nat (offset_height + image_size.1) < ex_height)%Z
    ∧ (Z.of_nat (offset_width + image_size.2) < ex_width)%Z
    ∧ ∃ resized,
      resize x (ex_height, ex_width) = Return resized
      ∧ let cropped :=
          (λ row : list (list R), take image_size.2 (drop offset_width row))
          <$> take image_size.1 (drop offset_height resized) in
        y = if flip then flip_left_right cropped else cropped.

(** [x] and [y] are [image_x] and [image_y] after the same crop and the
    same flip. *)
Definition augmented_alike (image_size : nat * nat) (expand : float)
    (image_x image_y x y : image) : Prop :=
  ∃ offset_height offset_width flip,
    augmented image_size expand offset_height offset_width flip image_x x
    ∧ augmented image_size expand offset_height offset_width flip image_y y.

End Functions.

(** An environment for closed examples: the draws 0, 1, 2, ..., two files
    of one grey 2 x 2 image each, no network, and the resizing that takes
    the nearest pixel above and to the left. *)
Definition nearest (x : image) (size : Z * Z) : outcome image :=
  let '(h, w) := (Z.to_nat size.1, Z.to_nat size.2) in
  Return ((λ i, (λ j, default [] (default [] (x !! (i * length x / h)%nat)
                                  !! (j * length (hd [] x) / w)%nat))
                <$> seq 0 w)
          <$> seq 0 h).

#[local] Instance two_files : Environment := {|
  draws := λ made, made;
  read_image := λ path channels,
    if decide (path = "x.png") then
      Return (replicate 2 (replicate 2 (replicate channels 0%R)))
    else if decide (path = "y.png") then
      Return (replicate 2 (replicate 2 (replicate channels 1%R)))
    else Throw (NotFoundError path);
  get_file := λ fname origin, Throw (NotFoundError origin);
  resize := nearest |}.

End Data.

(** * Properties *)

(** ** Tensor arithmetic *)

Section TensorFacts.
Local Open Scope R_scope.




Lemma reduce_sum_nonneg (t : tensor) :
  Forall (λ x, 0 <= x) t → 0 <= reduce_sum t.
Proof.
  induction 1 as [|x t Hx _ IH]; cbn; [lra|].
  fold (reduce_sum t). lra.
Qed.

Lemma reduce_mean_nonneg (t : tensor) :
  Forall (λ x, 0 <= x) t → 0 <= reduce_mean t.
Proof.
  intros Ht. unfold reduce_mean, Rdiv.
  destruct t as [|x t].
  - cbn. rewrite Rmult_0_l. lra.
  - apply Rmult_le_pos; [by apply reduce_sum_nonneg|].
    left. apply Rinv_0_lt_compat. apply lt_0_INR. cbn. lia.
Qed.

Lemma abs_nonneg (t : tensor) : Forall (λ x, 0 <= x) (abs t).
Proof. unfold abs. apply Forall_fmap, Forall_true. intros x. apply Rabs_pos. Qed.

Lemma reduce_mean_abs_nonneg (a b : tensor) : 0 <= reduce_mean (abs (sub a b)).
Proof. apply reduce_mean_nonneg, abs_nonneg. Qed.



End TensorFacts.

(** ** The CycleGAN trainer *)

Module CycleGanFacts.
Import CycleGan.
Local Open Scope R_scope.

Lemma init_invariant g f dx dy lr b1 b2 pfx :
  trainer_invariant (__init__ g f dx dy lr b1 b2 pfx).
Proof. by repeat split. Qed.

Lemma train_step_invariant `{Framework} self real_x real_y :
  trainer_invariant self → trainer_invariant (train_step self real_x real_y).1.
Proof.
  intros Hinv. unfold train_step.
  repeat match goal with |- context [apply_gradients ?o ?gv] =>
    destruct (apply_gradients o gv) end.
  exact Hinv.
Qed.

Lemma toy_invariant : trainer_invariant Toy.trainer.
Proof. apply init_invariant. Qed.

Lemma scale_1 (x : tensor) (training : bool) : apply (Toy.scale 1) x training = x.
Proof.
  unfold apply. cbn. induction x as [|a x IH]; [reflexivity|].
  cbn. f_equal; [lra | exact IH].
Qed.

(** C2: [discriminator_loss(r, g)] is half the sum of the cross-entropy of
    [r] against ones and of [g] against zeros, and [generator_loss(g)] is
    the cross-entropy of [g] against ones, the cross-entropy being the one
    on logits. *)
Theorem discriminator_generator_loss_bce (self : CycleGanTraining) (r g : tensor) :
  trainer_invariant self →
  discriminator_loss self r g =
    0.5 * (BinaryCrossentropy (ones_like r) r + BinaryCrossentropy (zeros_like g) g)
  ∧ generator_loss self g = BinaryCrossentropy (ones_like g) g.
Proof.
  intros (_ & Hloss & _). unfold discriminator_loss, generator_loss.
  rewrite Hloss. split; [apply Rmult_comm | reflexivity].
Qed.

Lemma discriminator_generator_loss_bce_witness :
  discriminator_loss Toy.trainer [0; 1] [1; -1] =
    0.5 * (BinaryCrossentropy (ones_like [0; 1]) [0; 1]
           + BinaryCrossentropy (zeros_like [1; -1]) [1; -1])
  ∧ generator_loss Toy.trainer [1; -1] = BinaryCrossentropy (ones_like [1; -1]) [1; -1].
Proof.
  apply (discriminator_generator_loss_bce Toy.trainer [0; 1] [1; -1]).
  repeat split; reflexivity.
Defined.



Lemma tf_calc_cycle_loss_number (self : CycleGanTraining) (a b : tensor) :
  sub a b ≠ [] →
  tf_calc_cycle_loss self a b = Number (calc_cycle_loss self a b).
Proof.
  intros Hne. unfold tf_calc_cycle_loss, calc_cycle_loss, tf_reduce_mean.
  destruct (abs (sub a b)) as [|x t] eqn:Habs; [|reflexivity].
  apply fmap_nil_inv in Habs. contradiction.
Qed.

Lemma tf_identity_loss_number (self : CycleGanTraining) (a b : tensor) :
  sub a b ≠ [] →
  tf_identity_loss self a b = Number (identity_loss self a b).
Proof.
  intros Hne. unfold tf_identity_loss, identity_loss, tf_reduce_mean.
  destruct (abs (sub a b)) as [|x t] eqn:Habs; [|reflexivity].
  apply fmap_nil_inv in Habs. contradiction.
Qed.












(** C1: [train_step] forms the total generator-G loss as the adversarial
    loss on [discriminator_y]'s score of the fake plus the cycle losses of
    both domains plus the identity loss on domain Y, with weight 10; the
    total generator-F loss alike with the identity loss on domain X; and it
    returns the discriminator-x loss with the total generator-G loss. *)
Theorem train_step_total_generator_losses `{Framework}
    (self : CycleGanTraining) (real_x real_y : tensor) :
  trainer_invariant self →
  let G x := apply (generator_g self) x true in
  let F y := apply (generator_f self) y true in
  let DX x := apply (discriminator_x self) x true in
  let DY y := apply (discriminator_y self) y true in
  let cycle_x := 10 * reduce_mean (abs (sub real_x (F (G real_x)))) in
  let cycle_y := 10 * reduce_mean (abs (sub real_y (G (F real_y)))) in
  let total_g :=
    generator_loss self (DY (G real_x)) + (cycle_x + cycle_y)
    + 10 * 0.5 * reduce_mean (abs (sub real_y (G real_y))) in
  let total_f :=
    generator_loss self (DX (F real_y)) + (cycle_x + cycle_y)
    + 10 * 0.5 * reduce_mean (abs (sub real_x (F real_x))) in
  LAMBDA self = 10%Z
  ∧ cycle_x = calc_cycle_loss self real_x (F (G real_x))
  ∧ cycle_y = calc_cycle_loss self real_y (G (F real_y))
  ∧ total_gen_g_loss (tape self real_x real_y) = total_g
  ∧ total_gen_f_loss (tape self real_x real_y) = total_f
  ∧ (train_step self real_x real_y).2 =
      (discriminator_loss self (DX real_x) (DX (F real_y)), total_g).
Proof.
  intros (HL & Hloss & Hpfx) G F DX DY cycle_x cycle_y total_g total_f.
  assert (total_gen_g_loss (tape self real_x real_y) = total_g) as Hg.
  { subst total_g cycle_x cycle_y.
    cbn [tape total_gen_g_loss]. unfold calc_cycle_loss, identity_loss.
    rewrite HL. reflexivity. }
  repeat split.
  - exact HL.
  - subst cycle_x. unfold calc_cycle_loss. by rewrite HL.
  - subst cycle_y. unfold calc_cycle_loss. by rewrite HL.
  - exact Hg.
  - subst total_f cycle_x cycle_y.
    cbn [tape total_gen_f_loss]. unfold calc_cycle_loss, identity_loss.
    rewrite HL. reflexivity.
  - rewrite <- Hg. unfold train_step.
    repeat match goal with |- context [apply_gradients ?o ?gv] =>
      destruct (apply_gradients o gv) end.
    reflexivity.
Qed.

Lemma train_step_total_generator_losses_witness :
  LAMBDA Toy.trainer = 10%Z
  ∧ (@train_step Toy.flat Toy.trainer [0] [1]).2.2 =
      generator_loss Toy.trainer [0]
      + (10 * reduce_mean (abs (sub [0] [0])) + 10 * reduce_mean (abs (sub [1] [1])))
      + 10 * 0.5 * reduce_mean (abs (sub [1] [1])).
Proof.
  pose proof (@train_step_total_generator_losses Toy.flat Toy.trainer [0] [1]
                toy_invariant) as H.
  cbv zeta in H. destruct H as (HL & _ & _ & _ & _ & Hret).
  split; [exact HL|].
  rewrite Hret. cbn [snd Toy.trainer __init__ generator_g generator_f
                     discriminator_x discriminator_y].
  rewrite !scale_1. reflexivity.
Defined.


Lemma train_step_fields `{Framework}
    (self : CycleGanTraining) (real_x real_y : tensor) :
  let self' := (train_step self real_x real_y).1 in
  ((generator_g_optimizer self', trainable_variables (generator_g self'))
     = own_step (generator_g_optimizer self)
                (total_gen_g_loss_of self real_x real_y) (generator_g self)
  ∧ (generator_f_optimizer self', trainable_variables (generator_f self'))
     = own_step (generator_f_optimizer self)
                (total_gen_f_loss_of self real_x real_y) (generator_f self)
  ∧ (discriminator_x_optimizer self', trainable_variables (discriminator_x self'))
     = own_step (discriminator_x_optimizer self)
                (disc_x_loss_of self real_x real_y) (discriminator_x self)
  ∧ (discriminator_y_optimizer self', trainable_variables (discriminator_y self'))
     = own_step (discriminator_y_optimizer self)
                (disc_y_loss_of self real_x real_y) (discriminator_y self))
  ∧ (call (generator_g self') = call (generator_g self)
  ∧ call (generator_f self') = call (generator_f self)
  ∧ call (discriminator_x self') = call (discriminator_x self)
  ∧ call (discriminator_y self') = call (discriminator_y self)).
Proof.
  intros self'. subst self'. unfold train_step, own_step. cbv zeta.
  repeat match goal with |- context [apply_gradients ?o ?gv] =>
    destruct (apply_gradients o gv) end.
  by repeat split.
Qed.



(** The step of [discriminator_x] reads neither [generator_g] nor
    [discriminator_y] nor the other three optimizers: replacing them all
    leaves the new variables of [discriminator_x] and its optimizer the
    same. *)
Lemma train_step_discriminator_x_frame `{Framework}
    (self : CycleGanTraining) (g dy : Model) (og ofx ody : Adam)
    (real_x real_y : tensor) :
  let other :=
    set_generator_g
      (set_discriminator_y
         (set_optimizers self og ofx (discriminator_x_optimizer self) ody) dy) g in
  let self' := (train_step self real_x real_y).1 in
  let other' := (train_step other real_x real_y).1 in
  (discriminator_x_optimizer other', trainable_variables (discriminator_x other'))
  = (discriminator_x_optimizer self', trainable_variables (discriminator_x self')).
Proof.
  intros other self' other'. subst self' other'.
  destruct (train_step_fields self real_x real_y) as ((_ & _ & -> & _) & _).
  destruct (train_step_fields other real_x real_y) as ((_ & _ & -> & _) & _).
  reflexivity.
Qed.

(** Likewise [generator_g] is stepped by its own total loss alone: the
    optimizers of the other networks do not enter. *)
Lemma train_step_generator_g_frame `{Framework}
    (self : CycleGanTraining) (ofx odx ody : Adam) (real_x real_y : tensor) :
  let other := set_optimizers self (generator_g_optimizer self) ofx odx ody in
  let self' := (train_step self real_x real_y).1 in
  let other' := (train_step other real_x real_y).1 in
  (generator_g_optimizer other', trainable_variables (generator_g other'))
  = (generator_g_optimizer self', trainable_variables (generator_g self')).
Proof.
  intros other self' other'. subst self' other'.
  destruct (train_step_fields self real_x real_y) as ((-> & _) & _).
  destruct (train_step_fields other real_x real_y) as ((-> & _) & _).
  reflexivity.
Qed.

(** C10: the argument [beta_2] of [__init__] is not used: trainers built
    with two values of it are the same object state, their four optimizers
    are [Adam(learning_rate, beta_1)] with the framework's own [beta_2], and
    every training step and run from them is the same. *)
Theorem beta_2_is_ignored `{Framework}
    (g f dx dy : Model) (lr b1 b b' : R) (pfx : option string) :
  let t := __init__ g f dx dy lr b1 b pfx in
  let t' := __init__ g f dx dy lr b1 b' pfx in
  t = t'
  ∧ generator_g_optimizer t = new_Adam lr b1
  ∧ generator_f_optimizer t = new_Adam lr b1
  ∧ discriminator_x_optimizer t = new_Adam lr b1
  ∧ discriminator_y_optimizer t = new_Adam lr b1
  ∧ beta_2 (new_Adam lr b1) = Adam_default_beta_2
  ∧ (∀ real_x real_y, train_step t real_x real_y = train_step t' real_x real_y)
  ∧ (∀ train_img train_tar epochs,
       train t train_img train_tar epochs = train t' train_img train_tar epochs).
Proof. by repeat split. Qed.

(** C6, first half, on the code: [__init__] takes [checkpoint_prefix] and
    stores it nowhere, so [save()] without a prefix reads an attribute that
    does not exist, whatever prefix the trainer was constructed with. *)
Theorem save_without_prefix_raises
    (g f dx dy : Model) (lr b1 b2 : R) (configured : option string) (fs : files) :
  save (__init__ g f dx dy lr b1 b2 configured) fs None
  = Raise (AttributeError "checkpoint_prefix").
Proof. reflexivity. Qed.

(** The same after any number of training steps and saves. *)
Lemma save_no_prefix_after_training (self : CycleGanTraining) (fs : files) :
  trainer_invariant self →
  save self fs None = Raise (AttributeError "checkpoint_prefix").
Proof. intros (_ & _ & Hpfx). unfold save. cbn. by rewrite Hpfx. Qed.

(** C6, second half: [save(p)] with a prefix that is not empty writes
    checkpoint number [save_counter + 1] at [p-N] and returns that path. *)
Lemma save_with_prefix (self : CycleGanTraining) (fs : files) (p : string) :
  p ≠ "" →
  ∃ self' fs',
    save self fs (Some p) =
      Ok (self', fs', Some (p +:+ "-" +:+ pretty (S (save_counter (checkpoint self)))))
    ∧ save_counter (checkpoint self') = S (save_counter (checkpoint self))
    ∧ is_Some (fs' !! (p +:+ "-" +:+ pretty (S (save_counter (checkpoint self)))))
    ∧ (trainer_invariant self → trainer_invariant self').
Proof.
  intros Hp. unfold save, truthy, Checkpoint_save, prefix_string.
  rewrite bool_decide_true by done. cbn [default].
  eexists _, _. split; [reflexivity|]. split; [reflexivity|].
  split; [|done]. unfold files in *. rewrite lookup_insert_eq. by eexists.
Qed.

(** *** The training run *)

Section TrainFacts.
Context `{Framework}.

Lemma batch_loop_this l batches :
  this (batch_loop l batches) = run_steps (this l) batches.
Proof.
  revert l. induction batches as [|[x y] batches IH]; intros l; [reflexivity|].
  cbn. unfold batch_loop in IH. rewrite IH.
  by destruct (train_step (this l) x y) as [? [? ?]].
Qed.

Lemma batch_loop_lists l batches :
  gen_loss_list (batch_loop l batches) = gen_loss_list l
  ∧ disc_loss_list (batch_loop l batches) = disc_loss_list l
  ∧ epoch_list (batch_loop l batches) = epoch_list l.
Proof.
  revert l. induction batches as [|[x y] batches IH]; intros l; [done|].
  cbn. unfold batch_loop in IH.
  destruct (IH (let '(self, (disc_loss, gen_loss)) := train_step (this l) x y in
                {| this := self; gen_loss_list := gen_loss_list l;
                   disc_loss_list := disc_loss_list l;
                   epoch_list := epoch_list l;
                   disc_loss := Some disc_loss;
                   gen_loss := Some gen_loss |})) as (-> & -> & ->).
  by destruct (train_step (this l) x y) as [? [? ?]].
Qed.

(** After the loop over the batches the two locals hold what
    [train_step] returned on the last batch. *)
Lemma batch_loop_last l init x y :
  let r := train_step (run_steps (this l) init) x y in
  disc_loss (batch_loop l (init ++ [(x, y)])) = Some r.2.1
  ∧ gen_loss (batch_loop l (init ++ [(x, y)])) = Some r.2.2.
Proof.
  intros r. subst r. unfold batch_loop. rewrite foldl_app. cbn.
  fold (batch_loop l init). rewrite batch_loop_this.
  by destruct (train_step (run_steps (this l) init) x y) as [? [? ?]].
Qed.

Lemma next_iter_zip (train_img train_tar : list tensor) :
  zip train_img train_tar ≠ [] →
  (∃ a, next_iter train_img = Ok a) ∧ (∃ b, next_iter train_tar = Ok b).
Proof.
  destruct train_img as [|a ?], train_tar as [|b ?]; cbn; try done.
  intros _. split; by eexists.
Qed.


Section Epochs.
Context (train_img train_tar : list tensor).
Context (init : list (tensor * tensor)) (image_x image_y : tensor).
Context (Hzip : zip train_img train_tar = init ++ [(image_x, image_y)]).

Lemma last_batch_losses_S self e :
  last_batch_losses init image_x image_y (run_steps self (init ++ [(image_x, image_y)])) e
  = last_batch_losses init image_x image_y self (S e).
Proof.
  unfold last_batch_losses, after_epochs.
  by rewrite Nat.iter_succ_r.
Qed.

Lemma epoch_body_spec l epoch :
  epoch_body train_img train_tar l epoch =
    Ok {| this := run_steps (this l) (init ++ [(image_x, image_y)]);
          gen_loss_list := gen_loss_list l ++ [(last_batch_losses init image_x image_y (this l) 0).2];
          disc_loss_list := disc_loss_list l ++ [(last_batch_losses init image_x image_y (this l) 0).1];
          epoch_list := epoch_list l ++ [S epoch];
          disc_loss := Some (last_batch_losses init image_x image_y (this l) 0).1;
          gen_loss := Some (last_batch_losses init image_x image_y (this l) 0).2 |}.
Proof.
  unfold epoch_body. rewrite Hzip.
  destruct (next_iter_zip train_img train_tar) as [[a ->] [b ->]].
  { rewrite Hzip. by destruct init. }
  cbn.
  destruct (batch_loop_last l init image_x image_y) as [-> ->].
  destruct (batch_loop_lists l (init ++ [(image_x, image_y)])) as (-> & -> & ->).
  rewrite batch_loop_this. cbn.
  unfold last_batch_losses, after_epochs. cbn.
  by rewrite Nat.add_1_r.
Qed.

Lemma epoch_loop_spec n : ∀ a l,
  ∃ l', epoch_loop train_img train_tar (seq a n) l = Ok l'
    ∧ this l' = after_epochs (this l) (init ++ [(image_x, image_y)]) n
    ∧ epoch_list l' = epoch_list l ++ seq (S a) n
    ∧ gen_loss_list l' =
        gen_loss_list l ++ ((λ e, (last_batch_losses init image_x image_y (this l) e).2) <$> seq 0 n)
    ∧ disc_loss_list l' =
        disc_loss_list l ++ ((λ e, (last_batch_losses init image_x image_y (this l) e).1) <$> seq 0 n).
Proof.
  induction n as [|n IH]; intros a l.
  - exists l. cbn. by rewrite !app_nil_r.
  - cbn [seq epoch_loop]. rewrite epoch_body_spec. cbn [mbind result_bind].
    edestruct (IH (S a)) as (l' & -> & Hthis & He & Hg & Hd).
    exists l'. split; [reflexivity|]. cbn in Hthis, He, Hg, Hd.
    rewrite Hthis, He, Hg, Hd. repeat split.
    + unfold after_epochs. by rewrite Nat.iter_succ_r.
    + by rewrite <- app_assoc.
    + rewrite <- app_assoc. f_equal. cbn. f_equal.
      rewrite <- seq_shift, <- list_fmap_compose.
      apply list_fmap_ext. intros ? e _. cbn.
      by rewrite last_batch_losses_S.
    + rewrite <- app_assoc. f_equal. cbn. f_equal.
      rewrite <- seq_shift, <- list_fmap_compose.
      apply list_fmap_ext. intros ? e _. cbn.
      by rewrite last_batch_losses_S.
Qed.
End Epochs.
End TrainFacts.

(** C7: when the two datasets pair into at least one batch, [train]
    returns the epoch numbers 1..n, the generator losses and the
    discriminator losses, each of length n, and the entries for epoch
    [e + 1] are what [train_step] returned on the last batch of that epoch,
    not a summary of the epoch's batches. *)
Theorem train_returns_last_batch_losses `{Framework}
    (self : CycleGanTraining) (train_img train_tar : list tensor)
    (init : list (tensor * tensor)) (image_x image_y : tensor) (epochs : nat) :
  zip train_img train_tar = init ++ [(image_x, image_y)] →
  ∃ self' gen_losses disc_losses,
    train self train_img train_tar epochs
      = Ok (self', (seq 1 epochs, gen_losses, disc_losses))
    ∧ self' = after_epochs self (init ++ [(image_x, image_y)]) epochs
    ∧ length (seq 1 epochs) = epochs
    ∧ length gen_losses = epochs
    ∧ length disc_losses = epochs
    ∧ ∀ e, (e < epochs)%nat →
        gen_losses !! e = Some (last_batch_losses init image_x image_y self e).2
        ∧ disc_losses !! e = Some (last_batch_losses init image_x image_y self e).1.
Proof.
  intros Hzip. unfold train.
  destruct (epoch_loop_spec train_img train_tar init image_x image_y Hzip epochs 0
              {| this := self; gen_loss_list := []; disc_loss_list := [];
                 epoch_list := []; disc_loss := None; gen_loss := None |})
    as (l' & -> & Hthis & He & Hg & Hd).
  cbn in Hthis, He, Hg, Hd. cbn [mbind result_bind].
  rewrite Hthis, He, Hg, Hd.
  eexists _, _, _. split; [reflexivity|]. split; [reflexivity|].
  rewrite !length_fmap, !length_seq. repeat split.
  - rewrite list_lookup_fmap, lookup_seq_lt by done. reflexivity.
  - rewrite list_lookup_fmap, lookup_seq_lt by done. reflexivity.
Qed.

Lemma train_returns_last_batch_losses_witness :
  ∃ self' gen_losses disc_losses,
    @train Toy.flat Toy.trainer [[0%R]; [0.5%R]] [[1%R]; [1%R]] 2
      = Ok (self', ([1%nat; 2%nat], gen_losses, disc_losses))
    ∧ length gen_losses = 2%nat
    ∧ length disc_losses = 2%nat.
Proof.
  destruct (@train_returns_last_batch_losses Toy.flat Toy.trainer
              [[0%R]; [0.5%R]] [[1%R]; [1%R]] [([0%R], [1%R])] [0.5%R] [1%R] 2)
    as (self' & g & d & Htrain & _ & _ & Hg & Hd & _).
  { reflexivity. }
  exists self', g, d. by repeat split.
Defined.

End CycleGanFacts.

(** ** The PatchGan discriminator builder *)

Module PatchGanFacts.
Import PatchGan.

Example lower_BatchNorm : lower "BatchNorm" = "batchnorm".
Proof. reflexivity. Qed.

(** [downsample] with a name it does not know adds no normalization layer
    and does not fail. *)
Lemma downsample_unknown_norm_type filters size norm_type apply_norm :
  ¬ known_norm_type norm_type →
  downsample filters size norm_type apply_norm
  = Sequential [Conv2D filters size 2 "same" false; LeakyReLU].
Proof.
  intros Hk. unfold downsample, known_norm_type in *.
  destruct apply_norm; [|reflexivity].
  repeat case_decide; tauto.
Qed.

(** C9: with a [norm_type] that is, in lower case, neither [batchnorm] nor
    [instancenorm], the builder reads [norm1] before any branch has
    assigned it; with one of the two it returns a model. *)
Theorem discriminator_norm_type (norm_type : string) (target : bool) :
  (¬ known_norm_type norm_type →
     discriminator norm_type target = Raise (UnboundLocalError "norm1"))
  ∧ (known_norm_type norm_type →
     ∃ model, discriminator norm_type target = Ok model
       ∧ inputs model =
           if target then [Input "input_image"; Input "target_image"]
           else [Input "input_image"]).
Proof.
  unfold known_norm_type, discriminator. split.
  - intros Hk. repeat case_decide; tauto.
  - intros Hk. cbn.
    destruct (decide (lower norm_type = "batchnorm")) as [Hb|Hb].
    + destruct target; eexists; split; reflexivity.
    + destruct (decide (lower norm_type = "instancenorm")) as [Hi|Hi]; [|tauto].
      destruct target; eexists; split; reflexivity.
Qed.

Lemma discriminator_norm_type_witness :
  discriminator "layernorm" true = Raise (UnboundLocalError "norm1")
  ∧ ∃ model, discriminator "InstanceNorm" false = Ok model
      ∧ inputs model = [Input "input_image"].
Proof.
  split.
  - apply (discriminator_norm_type "layernorm" true).
    intros [Hk|Hk]; discriminate Hk.
  - apply (discriminator_norm_type "InstanceNorm" false).
    right. reflexivity.
Defined.

End PatchGanFacts.

(** ** The ViT discriminator *)

Module TransGanFacts.
Import TransGan.

Lemma tile_one (t : list token) (n : nat) : tile [t] n = replicate n t.
Proof. unfold tile. induction n as [|n IH]; [reflexivity|]. cbn. by rewrite IH. Qed.

(** The layer puts the classification token in front of the tokens of
    every batch element. *)
Lemma AddCLSToken_call_cons (self : AddCLSToken_layer) (x : tensor3) :
  AddCLSToken_call self x = (λ tokens, cls_token self :: tokens) <$> x.
Proof.
  unfold AddCLSToken_call, concat_axis1. rewrite tile_one.
  induction x as [|tokens x IH]; [reflexivity|].
  cbn. by rewrite IH.
Qed.

Lemma AddCLSToken_call_lookup (self : AddCLSToken_layer) (x : tensor3) (b : nat) :
  AddCLSToken_call self x !! b = (λ tokens, cls_token self :: tokens) <$> x !! b.
Proof. by rewrite AddCLSToken_call_cons, list_lookup_fmap. Qed.

Lemma position_0_hd (x : tensor3) :
  Forall (λ tokens, tokens ≠ []) x →
  position_0 x = Ok ((λ tokens, hd [] tokens) <$> x).
Proof.
  unfold position_0.
  induction 1 as [|tokens x Htokens _ IH]; [reflexivity|].
  destruct tokens as [|t tokens]; [done|].
  cbn in *. by rewrite IH.
Qed.

Lemma hd_lookup_position_0 (x : list (list token)) (b : nat) :
  Forall (λ tokens, tokens ≠ []) x →
  ((λ tokens, hd [] tokens) <$> x) !! b = x !! b ≫= (.!! 0).
Proof.
  intros Hrows. rewrite list_lookup_fmap.
  destruct (x !! b) as [tokens|] eqn:Hb; [|reflexivity].
  cbn. pose proof (Forall_lookup_1 _ _ _ _ Hrows Hb) as Hne.
  by destruct tokens.
Qed.

Lemma position_0_empty_raises (x x' : tensor3) :
  position_0 (x ++ [] :: x') ≠ Ok ((λ tokens, hd [] tokens) <$> (x ++ [] :: x')).
Proof.
  unfold position_0. induction x as [|tokens x IH]; [discriminate|].
  destruct tokens as [|t tokens]; [discriminate|].
  cbn in *. destruct (mapM _ (x ++ [] :: x')) eqn:E; [|discriminate].
  intros [= ->]. by apply IH.
Qed.

Lemma run_blocks_keeps_lengths (blocks : list Block) :
  Forall (λ block, keeps_lengths (Block_call block)) blocks →
  keeps_lengths (run_blocks blocks).
Proof.
  unfold run_blocks. induction 1 as [|block blocks Hblock _ IH]; intros x.
  - reflexivity.
  - cbn. rewrite IH. apply Hblock.
Qed.

Lemma Add_diag_lengths (x : tensor3) :
  (λ tokens, length tokens) <$> Add x x = (λ tokens, length tokens) <$> x.
Proof.
  unfold Add. induction x as [|tokens x IH]; [reflexivity|].
  cbn. rewrite IH. f_equal. rewrite length_zip_with. lia.
Qed.

Lemma plain_block_keeps_lengths : keeps_lengths (Block_call Toy.plain_block).
Proof.
  intros x. unfold Block_call. cbn. by rewrite !Add_diag_lengths.
Qed.

(** After the token is put in front no batch element is empty, and layers
    that keep the lengths leave it so. *)
Lemma rows_nonempty_after_cls (self : AddCLSToken_layer)
    (layers : tensor3 → tensor3) (x : tensor3) :
  keeps_lengths layers →
  Forall (λ tokens, tokens ≠ []) (layers (AddCLSToken_call self x)).
Proof.
  intros Hkeep. apply Forall_lookup. intros b tokens Hb Hnil. subst tokens.
  assert (((λ tokens : list token, length tokens) <$>
             layers (AddCLSToken_call self x)) !! b = Some 0%nat) as Hlen.
  { by rewrite list_lookup_fmap, Hb. }
  rewrite Hkeep, AddCLSToken_call_cons, <- list_fmap_compose in Hlen.
  rewrite list_lookup_fmap in Hlen.
  destruct (x !! b); discriminate.
Qed.

(** C8: in [call] the classification token is put at position 0 of every
    batch element, one copy each, in front of the patch tokens, and the
    logits are the dense head applied to position 0 of the
    layer-normalized sequence alone. *)
Theorem call_logits_from_cls_token `{vit_helper}
    (self : discriminator) (input : tensor4) (x : tensor3) :
  multi_scale_tokens self input = Ok x →
  Forall (λ block, keeps_lengths (Block_call block)) (blocks_last self) →
  keeps_lengths (layer_norm self) →
  let with_cls := AddCLSToken_call (add_cls_token self) x in
  let normalized := layer_norm self (run_blocks (blocks_last self) with_cls) in
  length with_cls = length x
  ∧ (∀ b tokens, x !! b = Some tokens →
       with_cls !! b = Some (cls_token (add_cls_token self) :: tokens))
  ∧ (∀ b tokens i, x !! b = Some tokens →
       (with_cls !! b ≫= (.!! 0)) = Some (cls_token (add_cls_token self))
       ∧ (with_cls !! b ≫= (.!! (S i))) = tokens !! i)
  ∧ call self input = Ok (head self ((λ tokens, hd [] tokens) <$> normalized))
  ∧ (∀ b, ((λ tokens, hd [] tokens) <$> normalized) !! b
          = normalized !! b ≫= (.!! 0)).
Proof.
  intros Hx Hblocks Hnorm with_cls normalized.
  assert (Forall (λ tokens, tokens ≠ []) normalized) as Hrows.
  { subst normalized with_cls.
    apply (rows_nonempty_after_cls (add_cls_token self)
             (λ t, layer_norm self (run_blocks (blocks_last self) t))).
    intros t. rewrite Hnorm. by apply run_blocks_keeps_lengths. }
  assert (∀ b tokens, x !! b = Some tokens →
            with_cls !! b = Some (cls_token (add_cls_token self) :: tokens)) as Hcls.
  { intros b tokens Hb. subst with_cls.
    by rewrite AddCLSToken_call_lookup, Hb. }
  repeat split.
  - subst with_cls. by rewrite AddCLSToken_call_cons, length_fmap.
  - exact Hcls.
  - by rewrite (Hcls b tokens).
  - by rewrite (Hcls b tokens).
  - unfold call. rewrite Hx. cbn [mbind result_bind].
    fold with_cls. fold normalized. by rewrite position_0_hd.
  - intros b. by apply hd_lookup_position_0.
Qed.

Lemma call_logits_from_cls_token_witness :
  ∃ logits, @call Toy.one_window Toy.vit Toy.image = Ok logits ∧ length logits = 1.
Proof.
  edestruct (@call_logits_from_cls_token Toy.one_window Toy.vit Toy.image)
    as (_ & _ & _ & Hcall & _).
  - cbv -[Rplus]. reflexivity.
  - repeat constructor. apply plain_block_keeps_lengths.
  - intros x. reflexivity.
  - eexists. split; [exact Hcall | reflexivity].
Defined.

End TransGanFacts.

(** ** More on the losses of the trainer *)

Module LossFacts.
Import CycleGan.
Local Open Scope R_scope.

Lemma zip_with_ones_like (f : R → R → R) (x : tensor) :
  zip_with f (ones_like x) x = f 1 <$> x.
Proof. induction x as [|a x IH]; [reflexivity|]. cbn. by rewrite <- IH. Qed.

Lemma zip_with_zeros_like (f : R → R → R) (x : tensor) :
  zip_with f (zeros_like x) x = f 0 <$> x.
Proof. induction x as [|a x IH]; [reflexivity|]. cbn. by rewrite <- IH. Qed.

(** Against the label 1 the cross-entropy of a logit is the softplus of
    its negation, against the label 0 the softplus of the logit. *)
Lemma cross_entropy_label_1 (x : R) :
  sigmoid_cross_entropy_with_logits 1 x = ln (1 + exp (- x)).
Proof.
  unfold sigmoid_cross_entropy_with_logits, Rmax.
  destruct (Rle_dec x 0) as [Hx|Hx].
  - rewrite Rabs_left1 by done. rewrite Ropp_involutive.
    replace (1 + exp (- x)) with (exp (- x) * (1 + exp x)).
    + rewrite ln_mult, ln_exp; [lra | apply exp_pos |].
      pose proof (exp_pos x). lra.
    + rewrite Rmult_plus_distr_l, <- exp_plus.
      replace (- x + x) with 0 by lra. rewrite exp_0. lra.
  - rewrite Rabs_right by lra. lra.
Qed.

Lemma cross_entropy_label_0 (x : R) :
  sigmoid_cross_entropy_with_logits 0 x = ln (1 + exp x).
Proof.
  unfold sigmoid_cross_entropy_with_logits, Rmax.
  destruct (Rle_dec x 0) as [Hx|Hx].
  - rewrite Rabs_left1 by done. rewrite Ropp_involutive. lra.
  - rewrite Rabs_right by lra.
    replace (1 + exp x) with (exp x * (1 + exp (- x))).
    + rewrite ln_mult, ln_exp; [lra | apply exp_pos |].
      pose proof (exp_pos (- x)). lra.
    + rewrite Rmult_plus_distr_l, <- exp_plus.
      replace (x + - x) with 0 by lra. rewrite exp_0. lra.
Qed.




Lemma generator_loss_softplus self g :
  trainer_invariant self →
  generator_loss self g = reduce_mean ((λ x, ln (1 + exp (- x))) <$> g).
Proof.
  intros (_ & Hloss & _). unfold generator_loss, BinaryCrossentropy.
  rewrite Hloss. unfold BinaryCrossentropy. rewrite zip_with_ones_like.
  f_equal. apply list_fmap_ext. intros ? x _. apply cross_entropy_label_1.
Qed.

Lemma discriminator_loss_softplus self r g :
  trainer_invariant self →
  discriminator_loss self r g =
    (reduce_mean ((λ x, ln (1 + exp (- x))) <$> r)
     + reduce_mean ((λ x, ln (1 + exp x)) <$> g)) * 0.5.
Proof.
  intros (_ & Hloss & _). unfold discriminator_loss.
  rewrite Hloss. unfold BinaryCrossentropy.
  rewrite zip_with_ones_like, zip_with_zeros_like.
  f_equal. f_equal.
  - f_equal. apply list_fmap_ext. intros ? x _. apply cross_entropy_label_1.
  - f_equal. apply list_fmap_ext. intros ? x _. apply cross_entropy_label_0.
Qed.

(** X1: the generator loss is the mean of [log(1 + exp(-g))] over the
    logits, and the discriminator loss half the sum of the means of
    [log(1 + exp(-r))] over the real and of [log(1 + exp(g))] over the
    generated logits. *)
Theorem losses_are_mean_softplus (self : CycleGanTraining) (r g : tensor) :
  trainer_invariant self →
  generator_loss self g = reduce_mean ((λ x, ln (1 + exp (- x))) <$> g)
  ∧ discriminator_loss self r g =
      (reduce_mean ((λ x, ln (1 + exp (- x))) <$> r)
       + reduce_mean ((λ x, ln (1 + exp x)) <$> g)) * 0.5.
Proof.
  intros Hinv. split.
  - by apply generator_loss_softplus.
  - by apply discriminator_loss_softplus.
Qed.

Lemma losses_are_mean_softplus_witness :
  generator_loss Toy.trainer [2; -3] =
    reduce_mean ((λ x, ln (1 + exp (- x))) <$> [2; -3]).
Proof.
  apply (losses_are_mean_softplus Toy.trainer [1] [2; -3]).
  repeat split; reflexivity.
Defined.



Lemma reduce_sum_const (c : R) (t : tensor) :
  Forall (λ x, x = c) t → reduce_sum t = INR (length t) * c.
Proof.
  induction 1 as [|x t -> _ IH]; [cbn; lra|].
  cbn [reduce_sum foldr length]. fold (reduce_sum t).
  rewrite IH, S_INR. lra.
Qed.

Lemma reduce_mean_const (c : R) (t : tensor) :
  t ≠ [] → Forall (λ x, x = c) t → reduce_mean t = c.
Proof.
  intros Hne Hc. unfold reduce_mean. rewrite (reduce_sum_const c) by done.
  field. destruct t as [|x t]; [done|].
  apply not_0_INR. cbn. lia.
Qed.

(** X3: a discriminator that is undecided, every logit 0, gives the
    generator loss and the discriminator loss the value [log 2]. *)
Theorem undecided_discriminator_loss (self : CycleGanTraining) (r g : tensor) :
  trainer_invariant self →
  r ≠ [] → g ≠ [] →
  Forall (λ x, x = 0) r → Forall (λ x, x = 0) g →
  generator_loss self g = ln 2 ∧ discriminator_loss self r g = ln 2.
Proof.
  intros Hinv Hr Hg Hr0 Hg0.
  assert (ln (1 + exp (- 0)) = ln 2) as Hneg.
  { rewrite Ropp_0, exp_0. f_equal; lra. }
  assert (ln (1 + exp 0) = ln 2) as Hpos.
  { rewrite exp_0. f_equal; lra. }
  assert (∀ (f : R → R) (t : tensor),
            f 0 = ln 2 → t ≠ [] → Forall (λ x, x = 0) t →
            reduce_mean (f <$> t) = ln 2) as Hmean.
  { intros f t Hf Hne Ht. apply reduce_mean_const.
    - by destruct t.
    - apply Forall_fmap. eapply Forall_impl; [exact Ht|].
      intros x ->. exact Hf. }
  rewrite generator_loss_softplus, discriminator_loss_softplus by done.
  rewrite !Hmean by done. lra.
Qed.

Lemma undecided_discriminator_loss_witness :
  generator_loss Toy.trainer [0; 0; 0] = ln 2
  ∧ discriminator_loss Toy.trainer [0] [0; 0; 0] = ln 2.
Proof.
  apply (undecided_discriminator_loss Toy.trainer [0] [0; 0; 0]).
  - repeat split; reflexivity.
  - discriminate.
  - discriminate.
  - repeat constructor.
  - repeat constructor.
Defined.

Lemma reduce_sum_le_bound (c : R) (t : tensor) :
  Forall (λ x, x <= c) t → reduce_sum t <= INR (length t) * c.
Proof.
  induction 1 as [|x t Hx _ IH]; [cbn; lra|].
  cbn [reduce_sum foldr length]. fold (reduce_sum t). rewrite S_INR. lra.
Qed.

Lemma reduce_mean_le_bound (c : R) (t : tensor) :
  0 <= c → Forall (λ x, x <= c) t → reduce_mean t <= c.
Proof.
  intros Hc Ht. unfold reduce_mean, Rdiv. destruct t as [|x t].
  - cbn. rewrite Rmult_0_l. exact Hc.
  - assert (0 < INR (length (x :: t))) as Hn by (apply lt_0_INR; cbn; lia).
    pose proof (reduce_sum_le_bound c (x :: t) Ht) as Hs.
    apply (Rmult_le_reg_r (INR (length (x :: t)))); [exact Hn|].
    rewrite Rmult_assoc, Rinv_l by lra. lra.
Qed.

Lemma abs_sub_le_2 (a b : tensor) :
  Forall (λ x, -1 <= x <= 1) a → Forall (λ x, -1 <= x <= 1) b →
  Forall (λ x, x <= 2) (abs (sub a b)).
Proof.
  intros Ha. revert b. induction Ha as [|x a Hx _ IH]; intros b Hb.
  - constructor.
  - destruct Hb as [|y b Hy Hb]; [constructor|].
    cbn. constructor; [|by apply IH].
    apply Rabs_le. lra.
Qed.

(** X4: on image tensors with at least one element, whose values lie in
    [-1, 1], the cycle loss is a number in [0, 20] and the identity loss
    a number in [0, 10]. *)
Theorem cycle_identity_loss_bounds (self : CycleGanTraining) (a b : tensor) :
  trainer_invariant self →
  a ≠ [] → b ≠ [] →
  Forall (λ x, -1 <= x <= 1) a → Forall (λ x, -1 <= x <= 1) b →
  tf_calc_cycle_loss self a b = Number (calc_cycle_loss self a b)
  ∧ tf_identity_loss self a b = Number (identity_loss self a b)
  ∧ 0 <= calc_cycle_loss self a b <= 20
  ∧ 0 <= identity_loss self a b <= 10.
Proof.
  intros (HL & _) Hane Hbne Ha Hb.
  assert (sub a b ≠ []) as Hne by (by destruct a, b).
  split; [by apply CycleGanFacts.tf_calc_cycle_loss_number|].
  split; [by apply CycleGanFacts.tf_identity_loss_number|].
  pose proof (reduce_mean_abs_nonneg a b) as H0.
  pose proof (reduce_mean_le_bound 2 (abs (sub a b)) ltac:(lra)
                (abs_sub_le_2 a b Ha Hb)) as H2.
  unfold calc_cycle_loss, identity_loss. rewrite HL. lra.
Qed.

Lemma cycle_identity_loss_bounds_witness :
  0 <= calc_cycle_loss Toy.trainer [1; -1] [-1; 0.5] <= 20
  ∧ 0 <= identity_loss Toy.trainer [1; -1] [-1; 0.5] <= 10.
Proof.
  apply (cycle_identity_loss_bounds Toy.trainer [1; -1] [-1; 0.5]).
  - repeat split; reflexivity.
  - discriminate.
  - discriminate.
  - repeat (constructor; [lra|]). constructor.
  - repeat (constructor; [lra|]). constructor.
Defined.



End LossFacts.

(** ** More on the training step, the training run and [save] *)

Module TrainerFacts.
Import CycleGan Mirror.
Local Open Scope R_scope.

(** X7: [train_step] reports the discriminator-x loss and the total
    generator-G loss only; the discriminator-y loss and the total
    generator-F loss it computes are what the same step reports for the
    trainer with the two domains exchanged, on the exchanged batches. *)
Theorem train_step_mirror `{Framework}
    (self : CycleGanTraining) (real_x real_y : tensor) :
  let t := tape self real_x real_y in
  let t' := tape (mirror self) real_y real_x in
  total_gen_g_loss t' = total_gen_f_loss t
  ∧ total_gen_f_loss t' = total_gen_g_loss t
  ∧ disc_x_loss t' = disc_y_loss t
  ∧ disc_y_loss t' = disc_x_loss t
  ∧ (train_step self real_x real_y).2 = (disc_x_loss t, total_gen_g_loss t)
  ∧ (train_step (mirror self) real_y real_x).2
      = (disc_y_loss t, total_gen_f_loss t).
Proof.
  intros t t'.
  assert (total_gen_g_loss t' = total_gen_f_loss t) as Hg.
  { subst t t'. cbn [tape total_gen_g_loss total_gen_f_loss mirror
                     generator_g generator_f discriminator_x discriminator_y].
    unfold generator_loss, calc_cycle_loss, identity_loss. cbn. lra. }
  assert (disc_x_loss t' = disc_y_loss t) as Hd by reflexivity.
  repeat split; try assumption.
  - subst t t'. cbn [tape total_gen_g_loss total_gen_f_loss mirror
                     generator_g generator_f discriminator_x discriminator_y].
    unfold generator_loss, calc_cycle_loss, identity_loss. cbn. lra.
  - unfold train_step.
    repeat match goal with |- context [apply_gradients ?o ?gv] =>
      destruct (apply_gradients o gv) end.
    reflexivity.
  - rewrite <- Hg, <- Hd. unfold train_step.
    repeat match goal with |- context [apply_gradients ?o ?gv] =>
      destruct (apply_gradients o gv) end.
    reflexivity.
Qed.



Lemma epoch_body_take `{Framework} (train_img train_tar : list tensor) l epoch :
  epoch_body (take (length train_tar) train_img)
             (take (length train_img) train_tar) l epoch
  = epoch_body train_img train_tar l epoch.
Proof.
  unfold epoch_body. rewrite zip_with_take_both.
  destruct train_img as [|a train_img], train_tar as [|b train_tar];
    reflexivity.
Qed.

(** X9: the batches of the longer dataset beyond the length of the shorter
    one are never used: [train] gives the same result, and leaves the same
    trainer, when both datasets are cut to the common length. *)
Theorem train_uses_paired_batches_only `{Framework}
    (self : CycleGanTraining) (train_img train_tar : list tensor) (epochs : nat) :
  train self (take (length train_tar) train_img)
             (take (length train_img) train_tar) epochs
  = train self train_img train_tar epochs.
Proof.
  unfold train.
  assert (∀ range l,
            epoch_loop (take (length train_tar) train_img)
                       (take (length train_img) train_tar) range l
            = epoch_loop train_img train_tar range l) as ->; [|reflexivity].
  induction range as [|epoch range IH]; intros l; [reflexivity|].
  cbn [epoch_loop]. rewrite epoch_body_take.
  destruct (epoch_body train_img train_tar l epoch) as [l'|e]; [|reflexivity].
  cbn. apply IH.
Qed.

Lemma Checkpoint_save_invariant self fs p :
  trainer_invariant self → trainer_invariant (Checkpoint_save self fs p).1.1.
Proof. done. Qed.

(** X10: on a trainer as the class leaves it, [save] either is given a
    prefix that is not empty, writes and returns the path [prefix-N], or is
    given none or the empty one and raises [AttributeError]; it never
    returns [None]. *)
Theorem save_outcome (self : CycleGanTraining) (fs : files)
    (checkpoint_prefix : option string) :
  trainer_invariant self →
  match save self fs checkpoint_prefix with
  | Ok (self', fs', Some path) =>
      ∃ p, checkpoint_prefix = Some p ∧ p ≠ ""
        ∧ path = p +:+ "-" +:+ pretty (S (save_counter (checkpoint self)))
        ∧ is_Some (fs' !! path)
        ∧ trainer_invariant self'
  | Ok (_, _, None) => False
  | Raise e =>
      e = AttributeError "checkpoint_prefix"
      ∧ (checkpoint_prefix = None ∨ checkpoint_prefix = Some "")
  end.
Proof.
  intros Hinv. pose proof Hinv as (_ & _ & Hpfx).
  unfold save. destruct checkpoint_prefix as [p|]; cbn [truthy].
  - case_bool_decide as Hp.
    + unfold Checkpoint_save, prefix_string. cbn [default].
      exists p. split; [done|]. split; [done|]. split; [done|].
      split; [|exact Hinv].
      unfold files in *. rewrite lookup_insert_eq. by eexists.
    + rewrite Hpfx. cbn. split; [done|]. right. f_equal.
      by destruct (decide (p = "")) as [->|].
  - rewrite Hpfx. cbn. split; [done|]. by left.
Qed.

Lemma save_outcome_witness :
  match save Toy.trainer ∅ (Some "ckpt") with
  | Ok (_, _, Some path) => path = "ckpt-1"
  | _ => False
  end.
Proof.
  pose proof (save_outcome Toy.trainer ∅ (Some "ckpt")
                CycleGanFacts.toy_invariant) as Hsave.
  cbv [save truthy] in *. rewrite bool_decide_true in * by done.
  cbv [Checkpoint_save prefix_string default] in *.
  destruct Hsave as (p & [= <-] & _ & -> & _). reflexivity.
Defined.

Lemma train_step_checkpoint `{Framework} self real_x real_y :
  checkpoint (train_step self real_x real_y).1 = checkpoint self.
Proof.
  unfold train_step.
  repeat match goal with |- context [apply_gradients ?o ?gv] =>
    destruct (apply_gradients o gv) end.
  reflexivity.
Qed.

Lemma run_steps_checkpoint `{Framework} self batches :
  checkpoint (run_steps self batches) = checkpoint self.
Proof.
  revert self. induction batches as [|[x y] batches IH]; intros self; [done|].
  cbn. unfold run_steps in IH. by rewrite IH, train_step_checkpoint.
Qed.

Lemma checkpoint_path_inj (p : string) (n m : nat) :
  p +:+ "-" +:+ pretty n = p +:+ "-" +:+ pretty m → n = m.
Proof.
  intros Heq. apply (inj (String.app p)) in Heq.
  apply (inj (String.app "-")) in Heq. by apply (inj pretty) in Heq.
Qed.

(** X11: checkpoints under one prefix never overwrite each other: a second
    [save(p)], after any training steps, writes to another path, and the
    checkpoint of the first still holds the networks and optimizers as
    they were at the first [save]. *)
Theorem checkpoints_are_kept `{Framework}
    (self : CycleGanTraining) (fs : files) (p : string)
    (batches : list (tensor * tensor)) :
  p ≠ "" →
  ∃ self1 fs1 path1 self2 fs2 path2,
    save self fs (Some p) = Ok (self1, fs1, Some path1)
    ∧ save (run_steps self1 batches) fs1 (Some p) = Ok (self2, fs2, Some path2)
    ∧ path1 ≠ path2
    ∧ fs1 !! path1
      = Some ((λ name, (name, tracked_object self name))
                <$> tracked (checkpoint self))
    ∧ fs2 !! path1 = fs1 !! path1
    ∧ fs2 !! path2
      = Some ((λ name, (name, tracked_object (run_steps self1 batches) name))
                <$> tracked (checkpoint self)).
Proof.
  intros Hp.
  eexists _, _, _, _, _, _.
  split.
  { unfold save, truthy. rewrite bool_decide_true by done.
    unfold Checkpoint_save, prefix_string. cbn [default]. reflexivity. }
  split.
  { unfold save, truthy. rewrite bool_decide_true by done.
    unfold Checkpoint_save, prefix_string. cbn [default].
    rewrite run_steps_checkpoint.
    cbn [checkpoint set_checkpoint save_counter tracked]. reflexivity. }
  assert (p +:+ "-" +:+ pretty (S (save_counter (checkpoint self)))
          ≠ p +:+ "-" +:+ pretty (S (S (save_counter (checkpoint self))))) as Hne.
  { intros Heq%checkpoint_path_inj. lia. }
  unfold files in *. repeat split.
  - exact Hne.
  - by rewrite lookup_insert_eq.
  - by rewrite lookup_insert_ne.
  - by rewrite lookup_insert_eq.
Qed.

Lemma checkpoints_are_kept_witness :
  ∃ self1 fs1 self2 fs2,
    save Toy.trainer ∅ (Some "ckpt") = Ok (self1, fs1, Some "ckpt-1")
    ∧ save (@run_steps Toy.flat self1 [([0], [1])]) fs1 (Some "ckpt")
      = Ok (self2, fs2, Some "ckpt-2").
Proof.
  destruct (@checkpoints_are_kept Toy.flat Toy.trainer ∅ "ckpt" [([0], [1])])
    as (self1 & fs1 & path1 & self2 & fs2 & path2 & H1 & H2 & _).
  { discriminate. }
  exists self1, fs1, self2, fs2.
  assert (path1 = "ckpt-1") as <-.
  { cbv [save truthy] in H1. rewrite bool_decide_true in H1 by done.
    cbv [Checkpoint_save prefix_string default] in H1. by injection H1 as _ _ <-. }
  split; [exact H1|]. rewrite H2. do 3 f_equal.
  cbv [save truthy] in H1, H2. rewrite bool_decide_true in H1, H2 by done.
  cbv [Checkpoint_save prefix_string default] in H1, H2.
  injection H1 as <- _. rewrite (@run_steps_checkpoint Toy.flat) in H2.
  by injection H2 as _ _ <-.
Defined.

End TrainerFacts.

(** ** More on the ViT discriminator *)

Module ViTFacts.
Import TransGan Rank3.
Local Open Scope R_scope.

Lemma concat_rows_of (h w : nat) (l : list token) :
  length l = (h * w)%nat → concat (rows_of h w l) = l.
Proof.
  revert l. induction h as [|h IH]; intros l Hl.
  - by destruct l.
  - cbn [rows_of concat]. rewrite IH.
    + apply take_drop.
    + rewrite length_drop. lia.
Qed.

Lemma rows_of_length (h w : nat) (l : list token) : length (rows_of h w l) = h.
Proof. revert l. induction h as [|h IH]; intros l; cbn; [done|]. by rewrite IH. Qed.

Lemma mapM_result_cons {A B} (f : A → result B) (a : A) (l : list A) :
  mapM f (a :: l) = y ← f a; k ← mapM f l; mret (y :: k).
Proof. reflexivity. Qed.

Lemma Reshape_grid_Ok (h w : nat) (x : tensor3) :
  Forall (λ tokens, length tokens = (h * w)%nat) x →
  Reshape_grid h w x = Ok (rows_of h w <$> x).
Proof.
  unfold Reshape_grid. induction 1 as [|tokens x Hlen _ IH]; [reflexivity|].
  rewrite mapM_result_cons, decide_True, IH by done. reflexivity.
Qed.

Lemma Reshape_grid_inv (h w : nat) (x : tensor3) (g : tensor4) :
  Reshape_grid h w x = Ok g →
  Forall (λ tokens, length tokens = (h * w)%nat) x ∧ g = rows_of h w <$> x.
Proof.
  unfold Reshape_grid. revert g. induction x as [|tokens x IH]; intros g Hg.
  - cbn in Hg. injection Hg as <-. by split.
  - rewrite mapM_result_cons in Hg. case_decide as Hlen; [|discriminate].
    destruct (mapM _ x) as [g'|] eqn:Hx; [|discriminate].
    cbn in Hg. injection Hg as <-.
    destruct (IH g' eq_refl) as [Hall ->].
    split; [by constructor | reflexivity].
Qed.

(** X12: [Reshape((h, w, c))] of a token sequence succeeds exactly when
    every batch element has [h * w] tokens, gives [h] rows, and the two
    reshapes back, [Reshape((-1, c))] and [Reshape((h * w, c))], return
    the sequence it was given. *)
Theorem reshape_round_trip (h w : nat) (x : tensor3) :
  ((∃ g, Reshape_grid h w x = Ok g)
     ↔ Forall (λ tokens, length tokens = (h * w)%nat) x)
  ∧ (∀ g, Reshape_grid h w x = Ok g →
       Forall (λ rows, length rows = h) g
       ∧ Reshape_tokens g = x
       ∧ Reshape_length (h * w) g = Ok x).
Proof.
  split.
  - split.
    + intros [g Hg]. by apply Reshape_grid_inv in Hg as [? _].
    + intros Hall. eexists. by apply Reshape_grid_Ok.
  - intros g Hg. apply Reshape_grid_inv in Hg as [Hall ->].
    split; [|split].
    + apply Forall_fmap, Forall_true. intros tokens. apply rows_of_length.
    + unfold Reshape_tokens. rewrite <- list_fmap_compose.
      rewrite <- (list_fmap_id x) at 2. apply Forall_fmap_ext.
      eapply Forall_impl; [exact Hall|]. intros tokens Hlen. cbn.
      by apply concat_rows_of.
    + unfold Reshape_length.
      induction Hall as [|tokens x Hlen _ IH]; [reflexivity|].
      rewrite fmap_cons, mapM_result_cons. cbn zeta.
      rewrite concat_rows_of, decide_True, IH by done. reflexivity.
Qed.

(** X13: taking position 0 right after the classification token is put
    in front gives that token for every batch element, and [x[:, 0]] fails
    on a tensor exactly when some batch element has no token. *)
Theorem position_0_after_cls (self : AddCLSToken_layer) (x : tensor3) :
  position_0 (AddCLSToken_call self x) = Ok (replicate (length x) (cls_token self))
  ∧ ((∃ e, position_0 x = Raise e) ↔ Exists (λ tokens, tokens = []) x).
Proof.
  split.
  - rewrite TransGanFacts.AddCLSToken_call_cons. unfold position_0.
    induction x as [|tokens x IH]; [reflexivity|].
    rewrite fmap_cons, mapM_result_cons, IH. reflexivity.
  - unfold position_0. induction x as [|tokens x IH].
    + cbn. split; [intros [e He]; discriminate | inversion 1].
    + rewrite mapM_result_cons. destruct tokens as [|t tokens].
      * cbn. split; [intros _; by left | intros _; by eexists].
      * destruct (mapM _ x) as [ts|e] eqn:Hx; cbn.
        -- split; [intros [e He]; discriminate|].
           intros Hex. inversion Hex as [? ? Hnil|? ? Hrest]; [done|].
           apply IH in Hrest as [e He]. discriminate.
        -- split; [|intros _; by eexists].
           intros _. right. apply IH. by eexists.
Qed.

Lemma Add_lengths (a b : tensor3) :
  (λ tokens, length tokens) <$> a = (λ tokens, length tokens) <$> b →
  (λ tokens, length tokens) <$> Add a b = (λ tokens, length tokens) <$> b.
Proof.
  unfold Add. revert b. induction a as [|ta a IH]; intros [|tb b] Hab; try done.
  cbn in *. injection Hab as Hlen Hrest.
  rewrite IH by done. f_equal. rewrite length_zip_with. lia.
Qed.

(** X14: a block whose two normalizations, attention and MLP keep the
    number of tokens of every batch element keeps it too, and so does any
    sequence of such blocks. *)
Theorem blocks_keep_lengths (blocks : list Block) :
  Forall (λ block, keeps_lengths (LN1 block) ∧ keeps_lengths (attention block)
                   ∧ keeps_lengths (LN2 block) ∧ keeps_lengths (MLP block))
         blocks →
  Forall (λ block, keeps_lengths (Block_call block)) blocks
  ∧ keeps_lengths (run_blocks blocks).
Proof.
  intros Hblocks.
  assert (Forall (λ block, keeps_lengths (Block_call block)) blocks) as Hcall.
  { eapply Forall_impl; [exact Hblocks|].
    intros block (H1 & Ha & H2 & Hm) x. unfold Block_call.
    assert ((λ tokens, length tokens) <$> Add (attention block (LN1 block x)) x
            = (λ tokens, length tokens) <$> x) as Hx2.
    { apply Add_lengths. by rewrite Ha, H1. }
    rewrite Add_lengths; [exact Hx2|]. by rewrite Hm, H2. }
  split; [exact Hcall|].
  by apply TransGanFacts.run_blocks_keeps_lengths.
Qed.

Lemma blocks_keep_lengths_witness :
  keeps_lengths (run_blocks [Toy.plain_block; Toy.plain_block]).
Proof.
  apply (blocks_keep_lengths [Toy.plain_block; Toy.plain_block]).
  repeat constructor; intros x; reflexivity.
Defined.

Lemma zip_with_zeros_l (a b : token) :
  length a = length b → zip_with Rplus ((λ _ : R, 0) <$> a) b = b.
Proof.
  revert b. induction a as [|u a IH]; intros [|v b] Hlen; try done.
  cbn. injection Hlen as Hlen. rewrite IH by done. f_equal. lra.
Qed.

Lemma Add_zeros_l (z x : tensor3) :
  shape_of z = shape_of x → Add (zeros_like3 z) x = x.
Proof.
  unfold Add, zeros_like3, shape_of.
  revert x. induction z as [|tz z IH]; intros [|tx x] Hshape; try done.
  cbn in *. injection Hshape as Htokens Hrest.
  rewrite IH by done. f_equal.
  clear IH Hrest. revert tx Htokens.
  induction tz as [|a tz IHt]; intros [|b tx] Htokens; try done.
  cbn in *. injection Htokens as Hab Htokens.
  rewrite IHt by done. f_equal. by apply zip_with_zeros_l.
Qed.

(** X15: a block whose attention and whose MLP return zeros, as with
    output weights at zero, returns its input unchanged: only the two skip
    connections remain. *)
Theorem block_identity_on_zero_branches (self : Block) (x : tensor3) :
  (∀ t, shape_of (LN1 self t) = shape_of t) →
  (∀ t, shape_of (LN2 self t) = shape_of t) →
  (∀ t, attention self t = zeros_like3 t) →
  (∀ t, MLP self t = zeros_like3 t) →
  Block_call self x = x.
Proof.
  intros H1 H2 Ha Hm. unfold Block_call.
  rewrite Ha, Hm.
  assert (Add (zeros_like3 (LN1 self x)) x = x) as ->.
  { apply Add_zeros_l, H1. }
  apply Add_zeros_l, H2.
Qed.

Lemma block_identity_on_zero_branches_witness :
  Block_call {| LN1 := λ x, x; attention := zeros_like3;
                LN2 := λ x, x; MLP := zeros_like3 |}
             [[[1; 2]; [3; 4]]]
  = [[[1; 2]; [3; 4]]].
Proof.
  apply (block_identity_on_zero_branches
           {| LN1 := λ x, x; attention := zeros_like3;
              LN2 := λ x, x; MLP := zeros_like3 |});
    intros t; reflexivity.
Defined.

End ViTFacts.

(** ** The constructor of the ViT discriminator *)

Module ViTInitFacts.
Import Py ViTInit.

Lemma floordiv_Return (a b q : nat) :
  floordiv a b = Return q → b ≠ 0 ∧ q = a / b.
Proof. destruct b; cbn; [discriminate|]. by intros [= <-]. Qed.

Lemma PatchEmbed_init_Return image_size patch_size e k padding add_pos layer :
  PatchEmbed_init image_size patch_size e k padding add_pos = Return layer →
  patch_size ≠ 0
  ∧ num_patches layer = (image_size.1 / patch_size) * (image_size.2 / patch_size)
  ∧ embed_dim layer = e.
Proof.
  unfold PatchEmbed_init. destruct patch_size; cbn; [discriminate|].
  case_decide; [discriminate|]. by intros [= <-].
Qed.

Lemma quarters_and_half (e : nat) :
  e / 4 + e / 4 + e / 2 ≤ e ∧ (e / 4 + e / 4 + e / 2 = e ↔ e mod 4 = 0).
Proof.
  pose proof (Nat.div_mod_eq e 4) as H4.
  pose proof (Nat.mod_upper_bound e 4 ltac:(lia)) as Hr.
  assert (e / 2 = 2 * (e / 4) + (e mod 4) / 2) as H2.
  { rewrite H4 at 1. replace (4 * (e / 4)) with ((2 * (e / 4)) * 2) by lia.
    by rewrite Nat.div_add_l by lia. }
  assert ((e mod 4) / 2 ≤ 1 ∧ ((e mod 4) / 2 = e mod 4 ↔ e mod 4 = 0)) as [Hle Hiff].
  { destruct (e mod 4) as [|[|[|[|r]]]]; cbn; try lia.
    all: split; [lia|]; split; intros; lia. }
  split.
  - assert ((e mod 4) / 2 ≤ e mod 4); [|lia].
    destruct (e mod 4) as [|[|[|[|r]]]]; cbn; lia.
  - split; intros; lia.
Qed.

(** X18: the three patch embeddings have the widths [e // 4], [e // 4] and
    [e // 2] of [embed_dim = e]; the blocks after the first concatenation
    are built for the sum of the first two, the blocks after the second
    one, the classification token and the last block for [e] itself, and
    the concatenated width reaches [e] exactly when [e] is a multiple of
    4. *)
Theorem embed_dims_add_up (image_size : nat * nat)
    (depth num_classes e patch_size : nat) (mlp_p : R)
    (num_heads mlp_ratio : nat) (attn_p : R) (window_size : nat)
    (self : discriminator) :
  __init__ image_size depth num_classes e patch_size mlp_p
           num_heads mlp_ratio attn_p window_size = Return self →
  embed_dim (patches_1 self) = e / 4
  ∧ embed_dim (patches_2 self) = e / 4
  ∧ embed_dim (patches_3 self) = e / 2
  ∧ Forall (λ block, attention_dim block = e / 4) (blocks_1 self)
  ∧ Forall (λ block, attention_dim block = e / 4 + e / 4)
           (blocks_2 self ++ blocks_21 self)
  ∧ Forall (λ block, attention_dim block = e) (blocks_3 self ++ blocks_last self)
  ∧ add_cls_token self = e
  ∧ e / 4 + e / 4 + e / 2 ≤ e
  ∧ (e / 4 + e / 4 + e / 2 = e ↔ e mod 4 = 0).
Proof.
  unfold __init__. intros Hinit.
  destruct (PatchEmbed_init image_size patch_size _ _ _ _) as [p1|] eqn:H1;
    [|discriminate].
  destruct (PatchEmbed_init image_size (patch_size * 2) _ _ _ _) as [p2|] eqn:H2;
    [|discriminate].
  destruct (PatchEmbed_init image_size (patch_size * 4) _ _ _ _) as [p3|] eqn:H3;
    [|discriminate].
  cbn [mbind outcome_bind mret outcome_ret] in Hinit. injection Hinit as <-.
  cbn [patches_1 patches_2 patches_3 blocks_1 blocks_2 blocks_21 blocks_3
       blocks_last add_cls_token].
  apply PatchEmbed_init_Return in H1 as (_ & _ & ->).
  apply PatchEmbed_init_Return in H2 as (_ & _ & ->).
  apply PatchEmbed_init_Return in H3 as (_ & _ & ->).
  destruct (quarters_and_half e) as [Hle Hiff].
  repeat split; try done.
  - apply Forall_forall. by intros block ->%elem_of_replicate_inv.
  - apply Forall_app. split.
    + apply Forall_forall. by intros block ->%elem_of_replicate_inv.
    + by repeat constructor.
  - apply Forall_app. split.
    + apply Forall_forall. by intros block ->%elem_of_replicate_inv.
    + by repeat constructor.
  - apply Hiff.
  - apply Hiff.
Qed.

Lemma embed_dims_add_up_witness :
  ∃ self, __init__ (64, 64) 3 1 384 2 0%R 4 4 0%R 4 = Return self
    ∧ embed_dim (patches_3 self) = 192.
Proof.
  eexists. split; [reflexivity|].
  by destruct (embed_dims_add_up (64, 64) 3 1 384 2 0%R 4 4 0%R 4 _ eq_refl)
    as (_ & _ & -> & _).
Defined.






End ViTInitFacts.

(** ** The shapes of the PatchGan discriminator *)

Module PatchGanShapeFacts.
Import Py Shapes.

Lemma dim_same_2 (n : nat) : dim_same n 2 = Return (half_up n).
Proof. unfold dim_same, half_up. do 2 f_equal. lia. Qed.

Lemma half_up_le (n m : nat) : n ≤ 2 * m → half_up n ≤ m.
Proof.
  intros Hn. unfold half_up. apply Nat.lt_succ_r.
  apply Nat.Div0.div_lt_upper_bound. lia.
Qed.

Lemma dim_same_4_2 (n : nat) : dim "same" n 4 2 = Return (half_up n).
Proof. unfold dim. rewrite decide_True by done. apply dim_same_2. Qed.

Lemma half_up_lower (n : nat) : n ≤ 2 * half_up n.
Proof.
  unfold half_up. pose proof (Nat.div_mod_eq (n + 1) 2).
  pose proof (Nat.mod_upper_bound (n + 1) 2). lia.
Qed.

Lemma dim_valid_4_1 (n : nat) : 3 ≤ n → dim "valid" n 4 1 = Return (n - 3).
Proof.
  intros Hn. unfold dim. rewrite decide_False, decide_True by done.
  unfold dim_valid. rewrite decide_True by lia.
  rewrite Nat.div_1_r. f_equal. lia.
Qed.

Lemma downsample_shape filters norm_type apply_norm h w c :
  layer_shape (PatchGan.downsample filters 4 norm_type apply_norm) (h, w, c)
  = Return (half_up h, half_up w, filters).
Proof.
  unfold PatchGan.downsample.
  assert (∀ rest : list PatchGan.layer,
            Forall (λ l, ∀ s, layer_shape l s = Return s) rest →
            layer_shape
              (PatchGan.Sequential
                 (PatchGan.Conv2D filters 4 2 "same" false :: rest)) (h, w, c)
            = Return (half_up h, half_up w, filters)) as Hseq.
  { intros rest Hrest. cbn [layer_shape].
    rewrite !dim_same_4_2. cbn [mbind outcome_bind].
    generalize (half_up h, half_up w, filters).
    induction Hrest as [|l rest Hl _ IH]; intros s; [reflexivity|].
    rewrite Hl. cbn [mbind outcome_bind]. apply IH. }
  destruct apply_norm; repeat case_decide; cbn [app];
    apply Hseq; repeat constructor; by intros [[? ?] ?].
Qed.

Lemma input_shape (name : string) (h w : nat) :
  node_shape (h, w, 3) (PatchGan.Input name) = Return (h, w, 3).
Proof. cbn [node_shape snd]. by rewrite decide_True. Qed.

Lemma two_inputs_shape (a b : string) (h w : nat) :
  node_shape (h, w, 3) (PatchGan.concatenate [PatchGan.Input a; PatchGan.Input b])
  = Return (h, w, 6).
Proof.
  cbn [node_shape snd]. rewrite !decide_True by done.
  cbn [mbind outcome_bind concatenate_shapes].
  by rewrite decide_True.
Qed.

(** X20: on images of height [h] and width [w], both at least 17, and 3
    channels, the model the PatchGan builder returns gives one score per
    patch on a grid of [ceil(h / 8) - 2] by [ceil(w / 8) - 2], 30 by 30
    for 256 by 256 as the comments of the builder say; the grid has at
    least one patch. *)
Theorem discriminator_output_shape (norm_type : string) (target : bool)
    (h w : nat) (model : PatchGan.KerasModel) :
  PatchGan.discriminator norm_type target = Ok model →
  17 ≤ h → 17 ≤ w →
  let gh := half_up (half_up (half_up h)) in
  let gw := half_up (half_up (half_up w)) in
  node_shape (h, w, 3) (PatchGan.outputs model) = Return (gh - 2, gw - 2, 1)
  ∧ 1 ≤ gh - 2 ∧ 1 ≤ gw - 2.
Proof.
  intros Hmodel Hh Hw gh gw.
  assert (3 ≤ gh ∧ 3 ≤ gw) as [Hgh Hgw].
  { subst gh gw.
    pose proof (half_up_lower h). pose proof (half_up_lower (half_up h)).
    pose proof (half_up_lower (half_up (half_up h))).
    pose proof (half_up_lower w). pose proof (half_up_lower (half_up w)).
    pose proof (half_up_lower (half_up (half_up w))). lia. }
  split; [|lia].
  assert (∀ x c,
            node_shape (h, w, 3) x = Return (h, w, c) →
            ∀ norm1 : PatchGan.layer,
              (∀ s, layer_shape norm1 s = Return s) →
              node_shape (h, w, 3)
                (PatchGan.Call (PatchGan.Conv2D 1 4 1 "valid" true)
                   (PatchGan.Call PatchGan.ZeroPadding2D
                      (PatchGan.Call PatchGan.LeakyReLU
                         (PatchGan.Call norm1
                            (PatchGan.Call (PatchGan.Conv2D 512 4 1 "valid" false)
                               (PatchGan.Call PatchGan.ZeroPadding2D
                                  (PatchGan.Call
                                     (PatchGan.downsample 256 4 norm_type true)
                                     (PatchGan.Call
                                        (PatchGan.downsample 128 4 norm_type true)
                                        (PatchGan.Call
                                           (PatchGan.downsample 64 4 norm_type false)
                                           x)))))))))
              = Return (gh - 2, gw - 2, 1)) as Hbody.
  { intros x c Hx norm1 Hnorm.
    cbn [node_shape]. rewrite Hx. cbn [mbind outcome_bind].
    do 3 (rewrite downsample_shape; cbn [mbind outcome_bind]).
    fold gh gw. cbn [layer_shape mbind outcome_bind].
    rewrite !dim_valid_4_1 by lia.
    cbn [mbind outcome_bind]. rewrite Hnorm. cbn [mbind outcome_bind layer_shape].
    rewrite !dim_valid_4_1 by lia.
    cbn [mbind outcome_bind].
    replace (gh + 2 - 3 + 2 - 3) with (gh - 2) by lia.
    replace (gw + 2 - 3 + 2 - 3) with (gw - 2) by lia.
    reflexivity. }
  unfold PatchGan.discriminator in Hmodel.
  destruct (decide (PatchGan.lower norm_type = "batchnorm")) as [Hb|Hb].
  - cbn in Hmodel. destruct target; injection Hmodel as <-; cbn [PatchGan.outputs].
    + apply (Hbody _ 6); [apply two_inputs_shape | by intros [[? ?] ?]].
    + apply (Hbody _ 3); [apply input_shape | by intros [[? ?] ?]].
  - destruct (decide (PatchGan.lower norm_type = "instancenorm")) as [Hi|Hi];
      [|discriminate].
    cbn in Hmodel. destruct target; injection Hmodel as <-; cbn [PatchGan.outputs].
    + apply (Hbody _ 6); [apply two_inputs_shape | by intros [[? ?] ?]].
    + apply (Hbody _ 3); [apply input_shape | by intros [[? ?] ?]].
Qed.

Lemma discriminator_output_shape_witness :
  ∃ model, PatchGan.discriminator "instancenorm" false = Ok model
    ∧ node_shape (256, 256, 3) (PatchGan.outputs model) = Return (30, 30, 1).
Proof.
  eexists. split; [reflexivity|].
  by destruct (discriminator_output_shape "instancenorm" false 256 256 _
                 eq_refl ltac:(lia) ltac:(lia)) as [-> _].
Defined.

End PatchGanShapeFacts.

(** ** The shapes of the U-Net generator *)

Module UNetFacts.
Import Py Shapes.

Lemma half_up_double (m : nat) : half_up (m * 2) = m.
Proof.
  unfold half_up. rewrite Nat.add_comm, Nat.div_add by done. cbn. lia.
Qed.

Lemma half_up_mul (m k : nat) : half_up (m * (k * 2)) = m * k.
Proof. rewrite Nat.mul_assoc. apply half_up_double. Qed.

Lemma halvings_of_multiple (n : nat) :
  Nat.divide 128 n →
  let d := λ k, Nat.iter k half_up n in
  d 1 * 2 = n ∧ d 2 * 4 = n ∧ d 3 * 8 = n ∧ d 4 * 16 = n
  ∧ d 5 * 32 = n ∧ d 6 * 64 = n ∧ d 7 * 128 = n.
Proof.
  intros [m ->] d. subst d. cbv [Nat.iter nat_rect].
  rewrite (half_up_mul m 64 : half_up (m * 128) = m * 64).
  rewrite (half_up_mul m 32 : half_up (m * 64) = m * 32).
  rewrite (half_up_mul m 16 : half_up (m * 32) = m * 16).
  rewrite (half_up_mul m 8 : half_up (m * 16) = m * 8).
  rewrite (half_up_mul m 4 : half_up (m * 8) = m * 4).
  rewrite (half_up_mul m 2 : half_up (m * 4) = m * 2).
  rewrite (half_up_mul m 1 : half_up (m * 2) = m * 1).
  lia.
Qed.

Lemma unet_input_shape (h w : nat) :
  UNet.node_shape (h, w, 3) UNet.Input = Return (h, w, 3).
Proof. cbn [UNet.node_shape snd]. by rewrite decide_True. Qed.

Lemma down_shape image x h w c filters norm_type apply_norm :
  UNet.node_shape image x = Return (h, w, c) →
  UNet.node_shape image
    (UNet.Call (UNet.downsample filters 4 norm_type apply_norm) x)
  = Return (half_up h, half_up w, filters).
Proof.
  intros Hx. cbn [UNet.node_shape]. rewrite Hx. cbn [mbind outcome_bind].
  unfold UNet.downsample. cbn [UNet.layer_shape].
  apply PatchGanShapeFacts.downsample_shape.
Qed.

Lemma upsample_shape filters norm_type apply_dropout h w c :
  UNet.layer_shape (UNet.upsample filters 4 norm_type apply_dropout) (h, w, c)
  = Return (h * 2, w * 2, filters).
Proof.
  unfold UNet.upsample.
  assert (∀ rest : list UNet.layer,
            Forall (λ l, ∀ s, UNet.layer_shape l s = Return s) rest →
            UNet.layer_shape
              (UNet.Sequential
                 (UNet.Conv2DTranspose filters 4 2 "same" false None :: rest))
              (h, w, c)
            = Return (h * 2, w * 2, filters)) as Hseq.
  { intros rest Hrest. cbn [UNet.layer_shape dim_transpose].
    rewrite !decide_True by done. cbn [mbind outcome_bind].
    generalize (h * 2, w * 2, filters).
    induction Hrest as [|l rest Hl _ IH]; intros s; [reflexivity|].
    rewrite Hl. cbn [mbind outcome_bind]. apply IH. }
  destruct apply_dropout; repeat case_decide; cbn [app];
    apply Hseq; repeat constructor; by intros [[? ?] ?].
Qed.

Lemma up_shape image x skip h w c h' w' c' filters norm_type apply_dropout :
  UNet.node_shape image x = Return (h, w, c) →
  UNet.node_shape image skip = Return (h', w', c') →
  UNet.node_shape image
    (UNet.Concatenate
       [UNet.Call (UNet.upsample filters 4 norm_type apply_dropout) x; skip])
  = if decide (h * 2 = h' ∧ w * 2 = w') then Return (h * 2, w * 2, filters + c')
    else Throw (ValueError "concatenate").
Proof.
  intros Hx Hskip. cbn [UNet.node_shape]. rewrite Hx, Hskip.
  cbn [mbind outcome_bind]. rewrite upsample_shape.
  reflexivity.
Qed.

Lemma last_shape image x h w c filters use_bias activation :
  UNet.node_shape image x = Return (h, w, c) →
  UNet.node_shape image
    (UNet.Call (UNet.Conv2DTranspose filters 4 2 "same" use_bias activation) x)
  = Return (h * 2, w * 2, filters).
Proof.
  intros Hx. cbn [UNet.node_shape]. rewrite Hx.
  cbn [mbind outcome_bind UNet.layer_shape dim_transpose].
  by rewrite !decide_True by done.
Qed.

Lemma call_throw image l x e :
  UNet.node_shape image x = Throw e →
  UNet.node_shape image (UNet.Call l x) = Throw e.
Proof. intros Hx. cbn [UNet.node_shape]. by rewrite Hx. Qed.

Lemma concatenate_throw image x rest e :
  UNet.node_shape image x = Throw e →
  UNet.node_shape image (UNet.Concatenate (x :: rest)) = Throw e.
Proof. intros Hx. cbn [UNet.node_shape]. by rewrite Hx. Qed.

Ltac throws H :=
  match goal with
  | |- match ?t with Return _ => _ | Throw _ => _ end =>
      let Ht := fresh in
      eassert (t = Throw _) as Ht
        by (repeat first [exact H | apply call_throw | apply concatenate_throw]);
      rewrite Ht
  end.

Ltac halvings :=
  let Hh := fresh in let Hw := fresh in
  intros [Hh Hw];
  apply halvings_of_multiple in Hh; apply halvings_of_multiple in Hw;
  cbv zeta in Hh, Hw; cbv [Nat.iter nat_rect] in Hh, Hw; lia.

Ltac up_step lemma U :=
  pose proof lemma as U;
  match type of U with
  | _ = if decide ?P then _ else _ =>
      destruct (decide P) as [[? ?]|?]; [|throws U; halvings]
  end.

(** X21: the U-Net builder raises [ValueError] for [output_channels = 0]
    and returns a model otherwise, for every [norm_type]; fed an image of
    height [h] and width [w], both positive, the model gives an image of
    height [2 * ceil(h / 2)] and width [2 * ceil(w / 2)] with
    [output_channels] channels when [ceil(h / 2)] and [ceil(w / 2)] are
    multiples of 128, and fails in a skip connection otherwise; the output
    has the size of the input exactly when both sides are multiples of
    256. *)
Theorem unet_generator_shape (output_channels : nat) (norm_type : string)
    (h w : nat) :
  0 < h → 0 < w →
  match UNet.unet_generator output_channels norm_type with
  | Throw e => output_channels = 0 ∧ ∃ what, e = ValueError what
  | Return model =>
      0 < output_channels
      ∧ match UNet.node_shape (h, w, 3) (UNet.outputs model) with
        | Return s =>
            s = (2 * half_up h, 2 * half_up w, output_channels)
            ∧ Nat.divide 128 (half_up h) ∧ Nat.divide 128 (half_up w)
            ∧ (s = (h, w, output_channels)
               ↔ Nat.divide 256 h ∧ Nat.divide 256 w)
        | Throw _ =>
            ¬ (Nat.divide 128 (half_up h) ∧ Nat.divide 128 (half_up w))
        end
  end.
Proof.
  intros _ _. unfold UNet.unet_generator.
  case_decide as Hchannels; cbn [mbind outcome_bind];
    [by split; [|eexists]|].
  split; [lia|].
  cbn -[UNet.downsample UNet.upsample UNet.node_shape half_up Nat.mul
        Nat.divide].
  pose proof (unet_input_shape h w) as H0.
  pose proof (down_shape _ _ _ _ _ 64 norm_type false H0) as H1.
  pose proof (down_shape _ _ _ _ _ 128 norm_type true H1) as H2.
  pose proof (down_shape _ _ _ _ _ 256 norm_type true H2) as H3.
  pose proof (down_shape _ _ _ _ _ 512 norm_type true H3) as H4.
  pose proof (down_shape _ _ _ _ _ 512 norm_type true H4) as H5.
  pose proof (down_shape _ _ _ _ _ 512 norm_type true H5) as H6.
  pose proof (down_shape _ _ _ _ _ 512 norm_type true H6) as H7.
  pose proof (down_shape _ _ _ _ _ 512 norm_type true H7) as H8.
  up_step (up_shape _ _ _ _ _ _ _ _ _ 512 norm_type true H8 H7) U1.
  up_step (up_shape _ _ _ _ _ _ _ _ _ 512 norm_type true U1 H6) U2.
  up_step (up_shape _ _ _ _ _ _ _ _ _ 512 norm_type true U2 H5) U3.
  up_step (up_shape _ _ _ _ _ _ _ _ _ 512 norm_type false U3 H4) U4.
  up_step (up_shape _ _ _ _ _ _ _ _ _ 256 norm_type false U4 H3) U5.
  up_step (up_shape _ _ _ _ _ _ _ _ _ 128 norm_type false U5 H2) U6.
  up_step (up_shape _ _ _ _ _ _ _ _ _ 64 norm_type false U6 H1) U7.
  rewrite (last_shape _ _ _ _ _ output_channels true (Some "tanh") U7).
  assert (Nat.divide 128 (half_up h)) as Hh.
  { exists (Nat.iter 8 half_up h). cbv [Nat.iter nat_rect]. lia. }
  assert (Nat.divide 128 (half_up w)) as Hw.
  { exists (Nat.iter 8 half_up w). cbv [Nat.iter nat_rect]. lia. }
  split; [apply (f_equal2 pair); [apply (f_equal2 pair)|reflexivity]; lia|].
  split; [done|]. split; [done|].
  split.
  - intros Heq. apply pair_equal_spec in Heq as [Heq _].
    apply pair_equal_spec in Heq as [Heqh Heqw]. split.
    + exists (Nat.iter 8 half_up h). cbv [Nat.iter nat_rect]. lia.
    + exists (Nat.iter 8 half_up w). cbv [Nat.iter nat_rect]. lia.
  - intros [[m ->] [m' ->]].
    pose proof (half_up_mul m 128) as Hm. pose proof (half_up_mul m' 128) as Hm'.
    change (128 * 2) with 256 in Hm, Hm'. rewrite Hm, Hm' in *.
    apply (f_equal2 pair); [apply (f_equal2 pair)|reflexivity]; lia.
Qed.

Lemma unet_generator_shape_witness :
  ∃ model,
    UNet.unet_generator 3 "instancenorm" = Return model
    ∧ UNet.node_shape (256, 256, 3) (UNet.outputs model) = Return (256, 256, 3).
Proof.
  pose proof (unet_generator_shape 3 "instancenorm" 256 256 ltac:(lia) ltac:(lia))
    as Hshape.
  destruct (UNet.unet_generator 3 "instancenorm") as [model|e];
    [|by destruct Hshape].
  exists model. split; [reflexivity|].
  destruct Hshape as [_ Hshape].
  destruct (UNet.node_shape _ _) as [s|e].
  - by destruct Hshape as [-> _].
  - exfalso. apply Hshape. split; by exists 1.
Defined.

End UNetFacts.

(** ** The builders of [resnet/ResNet.py] *)

Module ResNetFacts.
Import Py ResNet.

Lemma outcome_bind_Return {A B} (m : outcome A) (k : A → outcome B) (b : B) :
  (m ≫= k) = Return b → ∃ a, m = Return a ∧ k a = Return b.
Proof. destruct m as [a|e]; [by exists a|done]. Qed.

(** A layer that is constructed is the one asked for. *)
Lemma construct_Return (l l' : layer) : construct l = Return l' → l' = l.
Proof. destruct l; cbn; repeat case_match; congruence. Qed.

Lemma construct_Conv2DTranspose f k s p b a l :
  construct (Conv2DTranspose f k s p b a) = Return l →
  l = Conv2DTranspose f k s p b a ∧ f ≠ 0 ∧ valid_size k = true.
Proof.
  intros H. split; [by apply construct_Return in H|].
  cbn in H. case_decide; [done|]. split; [done|].
  by destruct (valid_size k).
Qed.

Lemma construct_Conv2D f k s p i l :
  construct (Conv2D f k s p i) = Return l →
  l = Conv2D f k s p i ∧ f ≠ 0 ∧ valid_size k = true.
Proof.
  intros H. split; [by apply construct_Return in H|].
  cbn in H. case_decide; [done|]. split; [done|].
  by destruct (valid_size k).
Qed.

Lemma comprehension_Return (n : nat) (block : layer) (l : list layer) :
  comprehension n block = Return l → l = replicate n block.
Proof.
  revert l. induction n as [|n IH]; cbn [comprehension]; intros l.
  - by intros [= <-].
  - intros H. apply outcome_bind_Return in H as (b & Hb & H).
    apply outcome_bind_Return in H as (rest & Hrest & [= <-]).
    apply construct_Return in Hb as ->. by rewrite (IH _ Hrest).
Qed.

Lemma res_block_Return (resnet : string) (num_blocks : list nat) (i : nat)
    (filters : nat) (r : list layer) :
  res_block resnet num_blocks i filters = Return r →
  if contains "se" (PatchGan.lower resnet) then
    ∃ n, num_blocks !! i = Some n
         ∧ r = replicate n (SEResNet_Block filters [3; 3] [1; 1])
  else if contains "res" (PatchGan.lower resnet) then
    ∃ n, num_blocks !! i = Some n
         ∧ r = replicate n (ResNet_Block filters [3; 3] [1; 1])
  else r = [].
Proof.
  unfold res_block, index.
  destruct (contains "se" _); [|destruct (contains "res" _)].
  - destruct (num_blocks !! i) as [n|]; [|done]. cbn.
    intros H%comprehension_Return. by exists n.
  - destruct (num_blocks !! i) as [n|]; [|done]. cbn.
    intros H%comprehension_Return. by exists n.
  - by intros [= <-].
Qed.

Section Calls.
Context {tensor : Type} (apply : layer → tensor → tensor).





End Calls.




Lemma build_generator_Return
    (latent_dim : nat) (image_size : list nat) (channels num_filters : nat)
    (gen_kernel_size : list nat) (activation : string) (dense : bool)
    (resnet : string) (model : list layer) :
  build_generator latent_dim image_size channels num_filters
    gen_kernel_size activation dense resnet = Return model →
  let act :=
    if decide ("leakyrelu" = PatchGan.lower activation) then LeakyReLU
    else ReLU in
  ∃ a b,
    image_size = [a; b]
    ∧ num_filters ≠ 0 ∧ channels ≠ 0 ∧ valid_size gen_kernel_size = true
    ∧ model
      = (if dense then
           [Dense (a / 16 * (b / 16) * num_filters * 16) false
              (Some latent_dim)]
         else
           [Input latent_dim; Reshape [1; 1; latent_dim];
            Conv2DTranspose (num_filters * 16) [a / 16; b / 16] [1; 1]
              "valid" false None])
        ++ [BatchNormalization; act;
            Reshape [a / 16; b / 16; num_filters * 16]]
        ++ (if contains "se" (PatchGan.lower resnet) then []
            else if contains "res" (PatchGan.lower resnet) then
              [ResNet_Block (num_filters * 16) [3; 3] [1; 1]]
            else [])
        ++ [Conv2DTranspose (num_filters * 8) gen_kernel_size [2; 2] "same"
              false None; BatchNormalization; act;
            Conv2DTranspose (num_filters * 4) gen_kernel_size [2; 2] "same"
              false None; BatchNormalization; act;
            Conv2DTranspose (num_filters * 2) gen_kernel_size [2; 2] "same"
              false None; BatchNormalization; act;
            Conv2DTranspose channels gen_kernel_size [2; 2] "same" false
              (Some "tanh")].
Proof.
  unfold build_generator. cbv zeta.
  generalize (if decide ("leakyrelu" = PatchGan.lower activation)
              then LeakyReLU else ReLU).
  intros act H.
  apply outcome_bind_Return in H as (p0 & Hp0 & H).
  apply outcome_bind_Return in H as (p1 & Hp1 & H).
  apply outcome_bind_Return in H as (m1 & Hm1 & H).
  apply outcome_bind_Return in H as (m2 & Hm2 & H).
  apply outcome_bind_Return in H as (m3 & Hm3 & H).
  apply outcome_bind_Return in H as (c8 & Hc8 & H).
  apply outcome_bind_Return in H as (c4 & Hc4 & H).
  apply outcome_bind_Return in H as (c2 & Hc2 & H).
  apply outcome_bind_Return in H as (c & Hc & H).
  injection H as <-.
  apply construct_Conv2DTranspose in Hc8 as (-> & Hnf & Hk).
  apply construct_Conv2DTranspose in Hc4 as (-> & _ & _).
  apply construct_Conv2DTranspose in Hc2 as (-> & _ & _).
  apply construct_Conv2DTranspose in Hc as (-> & Hch & _).
  case_decide as Hlen; [|done]. injection Hm2 as <-.
  rewrite length_app, length_fmap in Hlen. cbn in Hlen.
  destruct image_size as [|a [|b [|? ?]]]; cbn in Hlen; try lia.
  cbn in Hp0, Hp1. injection Hp0 as <-. injection Hp1 as <-.
  exists a, b. repeat split; [lia|done..|].
  destruct dense.
  - injection Hm1 as <-.
    destruct (contains "se" _); [|destruct (contains "res" _)].
    + by injection Hm3 as <-.
    + apply outcome_bind_Return in Hm3 as (blk & Hblk & [= <-]).
      by apply construct_Return in Hblk as ->.
    + by injection Hm3 as <-.
  - apply outcome_bind_Return in Hm1 as (cv & Hcv & [= <-]).
    apply construct_Return in Hcv as ->.
    destruct (contains "se" _); [|destruct (contains "res" _)].
    + by injection Hm3 as <-.
    + apply outcome_bind_Return in Hm3 as (blk & Hblk & [= <-]).
      by apply construct_Return in Hblk as ->.
    + by injection Hm3 as <-.
Qed.

Lemma generator_init_Return
    (latent_dim : nat) (image_size : list nat) (channels num_filters : nat)
    (gen_kernel_size : list nat) (activation : string) (dense : bool)
    (resnet : string) (num_blocks : list nat) (self : SEResNet_generator) :
  SEResNet_generator_init latent_dim image_size channels num_filters
    gen_kernel_size activation dense resnet num_blocks = Return self →
  let act :=
    if decide ("leakyrelu" = PatchGan.lower activation) then LeakyReLU
    else ReLU in
  let project_size := (λ x, x / 16) <$> image_size in
  ∃ p0 p1 r1 r2 r3,
    project_size !! 0 = Some p0 ∧ project_size !! 1 = Some p1
    ∧ res_block resnet num_blocks 0 (num_filters * 16) = Return r1
    ∧ res_block resnet num_blocks 1 (num_filters * 8) = Return r2
    ∧ res_block resnet num_blocks 2 (num_filters * 4) = Return r3
    ∧ num_filters ≠ 0 ∧ channels ≠ 0 ∧ valid_size gen_kernel_size = true
    ∧ generator_layers self
      = (if dense then
           [Dense (p0 * p1 * num_filters * 16) false (Some latent_dim)]
         else
           [Input latent_dim; Reshape [1; 1; latent_dim];
            Conv2DTranspose (num_filters * 16) project_size [1; 1]
              "valid" false None])
        ++ [BatchNormalization; act;
            Reshape (project_size ++ [num_filters * 16])]
        ++ r1
        ++ [Conv2DTranspose (num_filters * 8) gen_kernel_size [2; 2] "same"
              false None; BatchNormalization; act]
        ++ r2
        ++ [Conv2DTranspose (num_filters * 4) gen_kernel_size [2; 2] "same"
              false None; BatchNormalization; act]
        ++ r3
        ++ [Conv2DTranspose (num_filters * 2) gen_kernel_size [2; 2] "same"
              false None; BatchNormalization; act;
            Conv2DTranspose channels gen_kernel_size [2; 2] "same" false
              (Some "tanh")].
Proof.
  unfold SEResNet_generator_init. cbv zeta.
  generalize (if decide ("leakyrelu" = PatchGan.lower activation)
              then LeakyReLU else ReLU).
  intros act H.
  apply outcome_bind_Return in H as (p0 & Hp0 & H).
  apply outcome_bind_Return in H as (p1 & Hp1 & H).
  apply outcome_bind_Return in H as (initial & Hinitial & H).
  apply outcome_bind_Return in H as (r1 & Hr1 & H).
  apply outcome_bind_Return in H as (c8 & Hc8 & H).
  apply outcome_bind_Return in H as (r2 & Hr2 & H).
  apply outcome_bind_Return in H as (c4 & Hc4 & H).
  apply outcome_bind_Return in H as (r3 & Hr3 & H).
  apply outcome_bind_Return in H as (c2 & Hc2 & H).
  apply outcome_bind_Return in H as (c & Hc & H).
  injection H as <-.
  apply construct_Conv2DTranspose in Hc8 as (-> & Hnf & Hk).
  apply construct_Conv2DTranspose in Hc4 as (-> & _ & _).
  apply construct_Conv2DTranspose in Hc2 as (-> & _ & _).
  apply construct_Conv2DTranspose in Hc as (-> & Hch & _).
  unfold index in Hp0, Hp1.
  destruct (_ !! 0) as [q0|] eqn:Hq0; [|done]. injection Hp0 as ->.
  destruct (_ !! 1) as [q1|] eqn:Hq1; [|done]. injection Hp1 as ->.
  exists p0, p1, r1, r2, r3. repeat split; [done|done|done|lia|done..|].
  unfold generator_layers.
  cbn [g_initial_block g_res_block1 g_conv_block1 g_res_block2
       g_conv_block2 g_res_block3 g_conv_block3 g_conv_block4].
  destruct dense.
  - injection Hinitial as <-. by rewrite <- !app_assoc.
  - apply outcome_bind_Return in Hinitial as (cv & Hcv & [= <-]).
    apply construct_Return in Hcv as ->. by rewrite <- !app_assoc.
Qed.










(** X24: [build_generator] never adds an SE-ResNet block, whatever
    [resnet] is; it adds a ResNet block, and then exactly one, when
    [resnet] holds 'res' and does not hold 'se'; and for a [resnet] that
    holds 'se' it builds the model it builds for [resnet = ''] *)
Theorem build_generator_resnet
    (latent_dim : nat) (image_size : list nat) (channels num_filters : nat)
    (gen_kernel_size : list nat) (activation : string) (dense : bool)
    (resnet : string) (model : list layer) :
  let se := contains "se" (PatchGan.lower resnet) in
  let res := contains "res" (PatchGan.lower resnet) in
  build_generator latent_dim image_size channels num_filters
    gen_kernel_size activation dense resnet = Return model →
  filter (λ l, is_SEResNet_Block l = true) model = []
  ∧ filter (λ l, is_ResNet_Block l = true) model
    = (if negb se && res
       then [ResNet_Block (num_filters * 16) [3; 3] [1; 1]] else [])
  ∧ (se = true →
     build_generator latent_dim image_size channels num_filters
       gen_kernel_size activation dense "" = Return model).
Proof.
  intros se res Hbuild. split; [|split].
  - apply build_generator_Return in Hbuild as (a & b & _ & _ & _ & _ & ->).
    fold se res. clearbody se res.
    destruct (decide ("leakyrelu" = PatchGan.lower activation));
      destruct se, res, dense; done.
  - apply build_generator_Return in Hbuild as (a & b & _ & _ & _ & _ & ->).
    fold se res. clearbody se res.
    destruct (decide ("leakyrelu" = PatchGan.lower activation));
      destruct se, res, dense; done.
  - intros Hse. rewrite <- Hbuild. unfold build_generator. fold se.
    rewrite Hse.
    change (contains "se" (PatchGan.lower "")) with false.
    by change (contains "res" (PatchGan.lower "")) with false.
Qed.

Lemma build_generator_resnet_witness :
  ∃ model,
    build_generator 100 [64; 64] 3 64 [4; 4] "LeakyReLU" true "SEResNet"
    = Return model
    ∧ filter (λ l, is_ResNet_Block l = true) model = []
    ∧ build_generator 100 [64; 64] 3 64 [4; 4] "LeakyReLU" true ""
      = Return model.
Proof.
  eexists. split; [reflexivity|].
  destruct (build_generator_resnet 100 [64; 64] 3 64 [4; 4] "LeakyReLU" true
              "SEResNet" _ eq_refl) as (_ & Hres & Hse).
  split; [exact Hres|]. by apply Hse.
Defined.

(** X25: the constructor of [SEResNet_generator] fails with an
    [IndexError] when [image_size] has fewer than two sides, and the
    constructor of [SEResNet_discriminator] with a [ValueError] when
    [num_filters] is 0.  When the constructor of the generator returns,
    [image_size] has at least two sides, neither [num_filters] nor
    [channels] is 0 and, if [resnet] holds 'se' or 'res', [num_blocks] has
    at least three entries; when the constructor of the discriminator
    returns, [num_filters] is not 0 and, if [resnet] holds 'se' or 'res',
    [num_blocks] has at least four entries. *)
Theorem SEResNet_init_failures
    (latent_dim : nat) (image_size : list nat) (channels num_filters : nat)
    (kernel_size : list nat) (activation : string) (dropout_rate : R)
    (batchnorm dropout dense : bool) (pooling : option string)
    (resnet : string) (num_blocks : list nat) :
  let blocks :=
    contains "se" (PatchGan.lower resnet)
    || contains "res" (PatchGan.lower resnet) in
  (length image_size < 2 →
   SEResNet_generator_init latent_dim image_size channels num_filters
     kernel_size activation dense resnet num_blocks
   = Throw (IndexError "list index out of range"))
  ∧ (num_filters = 0 →
     ∃ what,
       SEResNet_discriminator_init image_size channels num_filters
         kernel_size dropout_rate batchnorm dropout dense pooling resnet
         num_blocks = Throw (ValueError what))
  ∧ (∀ self,
       SEResNet_generator_init latent_dim image_size channels num_filters
         kernel_size activation dense resnet num_blocks = Return self →
       2 ≤ length image_size ∧ num_filters ≠ 0 ∧ channels ≠ 0
       ∧ (blocks = true → 3 ≤ length num_blocks))
  ∧ (∀ self,
       SEResNet_discriminator_init image_size channels num_filters
         kernel_size dropout_rate batchnorm dropout dense pooling resnet
         num_blocks = Return self →
       num_filters ≠ 0 ∧ (blocks = true → 4 ≤ length num_blocks)).
Proof.
  intros blocks. subst blocks. repeat split.
  - intros Hlen. unfold SEResNet_generator_init.
    by destruct image_size as [|a [|b image_size]]; [..|cbn in Hlen; lia].
  - intros ->. exists "filters". by unfold SEResNet_discriminator_init.
  - apply generator_init_Return in H
      as (p0 & p1 & _ & _ & _ & _ & Hp1 & _).
    apply lookup_lt_Some in Hp1. rewrite length_fmap in Hp1. lia.
  - by apply generator_init_Return in H
      as (_ & _ & _ & _ & _ & _ & _ & _ & _ & _ & ? & _).
  - by apply generator_init_Return in H
      as (_ & _ & _ & _ & _ & _ & _ & _ & _ & _ & _ & ? & _).
  - intros Hblocks.
    apply generator_init_Return in H
      as (_ & _ & _ & _ & r3 & _ & _ & _ & _ & Hr3 & _).
    apply res_block_Return in Hr3. revert Hblocks Hr3.
    destruct (contains "se" _), (contains "res" _); try done.
    all: intros _ (n & Hn%lookup_lt_Some & _); lia.
  - unfold SEResNet_discriminator_init in H. cbv zeta in H.
    by apply outcome_bind_Return in H as (c & (_ & ? & _)%construct_Conv2D & _).
  - intros Hblocks.
    unfold SEResNet_discriminator_init in H. cbv zeta in H.
    apply outcome_bind_Return in H as (? & _ & H).
    apply outcome_bind_Return in H as (? & _ & H).
    apply outcome_bind_Return in H as (? & _ & H).
    apply outcome_bind_Return in H as (? & _ & H).
    apply outcome_bind_Return in H as (? & _ & H).
    apply outcome_bind_Return in H as (? & _ & H).
    apply outcome_bind_Return in H as (? & _ & H).
    apply outcome_bind_Return in H as (r4 & Hr4 & _).
    apply res_block_Return in Hr4. revert Hblocks Hr4.
    destruct (contains "se" _), (contains "res" _); try done.
    all: intros _ (n & Hn%lookup_lt_Some & _); lia.
Qed.

Lemma SEResNet_init_failures_witness :
  SEResNet_generator_init 100 [64] 3 64 [4; 4] "LeakyReLU" true "" [3; 3; 3]
  = Throw (IndexError "list index out of range").
Proof.
  apply (SEResNet_init_failures 100 [64] 3 64 [4; 4] "LeakyReLU" 0 false
           true true None "" [3; 3; 3]).
  cbn. lia.
Defined.

End ResNetFacts.

(** ** The squeeze-and-excitation block *)

Module SEBlockFacts.
Import Py SEBlock.
Local Open Scope R_scope.

Lemma sigmoid_range (v : R) : 0 <= sigmoid v <= 1.
Proof.
  unfold sigmoid. pose proof (exp_pos (- v)) as He.
  assert (0 < 1 + exp (- v)) as Hd by lra.
  pose proof (Rinv_0_lt_compat _ Hd) as Hi.
  pose proof (Rinv_l (1 + exp (- v)) ltac:(lra)) as Hl.
  split; [lra|]. nra.
Qed.

Lemma Dense_sigmoid_range (self : Dense) (x y : list R) :
  Dense_call sigmoid self x = Return y → Forall (λ g, 0 <= g <= 1) y.
Proof.
  unfold Dense_call. case_decide; [|done]. intros [= <-].
  apply Forall_lookup. intros j g. rewrite list_lookup_imap.
  destruct (bias self !! j); [|done]. intros [= <-]. apply sigmoid_range.
Qed.

(** X26: on an input of as many channels as the block has filters,
    [SE_Block.call], when it returns, has multiplied every element of the
    batch channel by channel with factors from 0 to 1, the same at every
    pixel of the element. *)
Theorem SE_Block_rescales (self : SE_Block) (channels : nat)
    (input output : list (list (list (list R)))) :
  channels = num_filters self →
  call self channels input = Return output →
  Forall2 (λ element out,
             ∃ gate, length gate = channels
               ∧ Forall (λ g, 0 <= g <= 1) gate
               ∧ out = (λ row : list (list R),
                          (λ pixel : list R, zip_with Rmult pixel gate) <$> row)
                       <$> element)
          input output.
Proof.
  intros Hchannels. revert output.
  induction input as [|element input IH]; intros output; cbn [call].
  - intros [= <-]. constructor.
  - destruct (call_element self channels element) as [out|] eqn:Helement;
      [|done].
    destruct (call self channels input) as [outs|]; [|done].
    cbn [mbind outcome_bind]. intros [= <-].
    constructor; [|by apply IH].
    unfold call_element in Helement.
    destruct (Dense_call relu _ _) as [x1|]; [|done].
    cbn [mbind outcome_bind] in Helement.
    destruct (Dense_call sigmoid _ x1) as [gate|] eqn:Hgate; [|done].
    cbn [mbind outcome_bind] in Helement.
    case_decide as Hlen; [|done]. cbn [mbind outcome_bind] in Helement.
    unfold Multiply in Helement. rewrite decide_True in Helement by congruence.
    injection Helement as <-.
    exists gate. split; [congruence|]. split; [|done].
    by eapply Dense_sigmoid_range.
Qed.

Lemma SE_Block_rescales_witness :
  ∃ gate,
    Forall (λ g, 0 <= g <= 1) gate
    ∧ call {| num_filters := 1;
              dens1 := {| kernel := [[1]]; bias := [0] |};
              dens2 := {| kernel := [[1]]; bias := [0] |} |}
           1 [[[[2]; [4]]]]
      = Return [[[zip_with Rmult [2] gate; zip_with Rmult [4] gate]]].
Proof.
  pose (self := {| num_filters := 1;
                   dens1 := {| kernel := [[1]]; bias := [0] |};
                   dens2 := {| kernel := [[1]]; bias := [0] |} |}).
  destruct (call self 1 [[[[2]; [4]]]]) as [output|] eqn:Hcall;
    [|by vm_compute in Hcall].
  pose proof (SE_Block_rescales self 1 _ output eq_refl Hcall) as Hout.
  apply Forall2_cons_inv_l in Hout as (out & outs & (gate & _ & Hgate & ->) & Hnil & ->).
  apply Forall2_nil_inv_l in Hnil as ->.
  exists gate. split; [exact Hgate|]. subst self. by rewrite Hcall.
Defined.

End SEBlockFacts.

(** ** Loading and augmenting the images *)

Module DataFacts.
Import Py Data PrimFloat.

Lemma traverse_Return {A B} (f : A → outcome B) (l : list A) (l' : list B) :
  traverse f l = Return l' ↔ Forall2 (λ a b, f a = Return b) l l'.
Proof.
  revert l'. induction l as [|a l IH]; intros l'; cbn [traverse].
  - split; [intros [= <-]; constructor|by intros ->%Forall2_nil_inv_l].
  - split.
    + destruct (f a) as [b|] eqn:Hb; [|done]. cbn [mbind outcome_bind].
      destruct (traverse f l) as [bs|]; [|done]. cbn [mbind outcome_bind].
      intros [= <-]. constructor; [done|]. by apply IH.
    + intros (b & bs & Hb & Hbs & ->)%Forall2_cons_inv_l.
      rewrite Hb. cbn [mbind outcome_bind].
      apply IH in Hbs as ->. reflexivity.
Qed.

Lemma Forall2_right {A B} (P : A → B → Prop) (Q : B → Prop)
    (l : list A) (k : list B) :
  (∀ a b, P a b → Q b) → Forall2 P l k → Forall Q k.
Proof. intros HPQ. induction 1; constructor; eauto. Qed.

Lemma crop_Return_shape (x : image) (h w : nat) (oh ow : Z) (th tw : nat)
    (y : image) :
  has_shape h w x →
  crop_to_bounding_box x oh ow th tw = Return y →
  has_shape th tw y.
Proof.
  intros [Hh Hw]. unfold crop_to_bounding_box.
  repeat case_decide; try done. intros [= <-].
  assert (length (hd [] x) = w) as Hhd.
  { destruct x as [|row x]; [cbn in *; exfalso; lia|]. by inversion Hw. }
  split.
  - rewrite length_fmap, length_take, length_drop. lia.
  - apply Forall_fmap. apply Forall_take, Forall_drop.
    eapply Forall_impl; [exact Hw|]. intros row Hrow. cbn in Hrow |- *.
    rewrite length_take, length_drop. lia.
Qed.

Lemma batches_concat {A} (batch_size : nat) (current dataset : list A) :
  concat (batches batch_size current dataset) = current ++ dataset.
Proof.
  revert current. induction dataset as [|a dataset IH]; intros current;
    cbn [batches].
  - destruct current; cbn; [done|]. by rewrite !app_nil_r.
  - case_decide; cbn [concat]; rewrite IH; by rewrite <- app_assoc.
Qed.




Section Environment.
Context `{Environment}.

Lemma randint_spec (low high : Z) (made : nat) :
  match randint low high made with
  | Throw e => ∃ what, e = ValueError what
  | Return (r, made') =>
      made' = S made ∧ (low ≤ r < high)%Z ∧ (high ≤ 2 ^ 63)%Z
  end.
Proof.
  unfold randint. repeat case_decide; try by eexists.
  split; [done|].
  pose proof (Z.mod_pos_bound (Z.of_nat (draws made)) (high - low)). lia.
Qed.

Lemma bind_Return {A B} (m : Rand A) (k : A → Rand B) (made : nat)
    (r : B * nat) :
  (m ≫= k) made = Return r →
  ∃ a made1, m made = Return (a, made1) ∧ k a made1 = Return r.
Proof.
  unfold mbind, Rand_bind. destruct (m made) as [[a made1]|]; [|done].
  intros Hk. by exists a, made1.
Qed.

Lemma lift_Return {A} (m : outcome A) (made : nat) (a : A) (made' : nat) :
  lift m made = Return (a, made') → m = Return a ∧ made' = made.
Proof. unfold lift. destruct m; [|done]. by intros [= -> ->]. Qed.

Lemma crop_Return (x : image) (oh ow : Z) (th tw : nat) (y : image) :
  crop_to_bounding_box x oh ow th tw = Return y →
  y = (λ row : list (list R), take tw (drop (Z.to_nat ow) row))
      <$> take th (drop (Z.to_nat oh) x).
Proof.
  unfold crop_to_bounding_box. repeat case_decide; try done.
  by intros [= <-].
Qed.

Lemma Forall2_compose {A B C} (P : A → B → Prop) (Q : B → C → Prop)
    (S : A → C → Prop) (l : list A) (m : list B) (n : list C) :
  (∀ a b c, P a b → Q b c → S a c) →
  Forall2 P l m → Forall2 Q m n → Forall2 S l n.
Proof.
  intros HS Hlm. revert n.
  induction Hlm as [|a b l m Hab _ IH]; intros n Hmn.
  - apply Forall2_nil_inv_l in Hmn as ->. constructor.
  - apply Forall2_cons_inv_l in Hmn as (c & n' & Hbc & Hmn & ->).
    constructor; [by eapply HS|by apply IH].
Qed.

(** What [random_crop_images] has done when it returns. *)
Lemma random_crop_images_inv (dataset : list (list image))
    (height width : nat) (expand : float) (made : nat)
    (cropped : list (list image)) (made' : nat) :
  random_crop_images dataset (height, width) expand made
  = Return (cropped, made') →
  made' = made + 2
  ∧ ∃ (ex_height ex_width : Z) (offset_height offset_width : nat),
      int_times height expand = Return ex_height
      ∧ int_times width expand = Return ex_width
      ∧ (Z.of_nat (offset_height + height) < ex_height)%Z
      ∧ (Z.of_nat (offset_width + width) < ex_width)%Z
      ∧ Forall2
          (Forall2
             (λ x y : image,
                ∃ resized,
                  resize x (ex_height, ex_width) = Return resized
                  ∧ crop_to_bounding_box resized (Z.of_nat offset_height)
                      (Z.of_nat offset_width) height width = Return y))
          dataset cropped.
Proof.
  unfold random_crop_images.
  intros (ex_height & made0 & Hh & Hrest)%bind_Return.
  apply bind_Return in Hrest as (ex_width & made0' & Hw & Hrest).
  apply bind_Return in Hrest as (oh & made1 & Hoh & Hrest).
  apply bind_Return in Hrest as (ow & made2 & How & Hrest).
  apply bind_Return in Hrest as (mid & made3 & Hmid & Hrest).
  apply bind_Return in Hrest as (out & made4 & Hout & Hret).
  injection Hret as -> ->.
  apply lift_Return in Hh as [Hh ->], Hw as [Hw ->].
  apply lift_Return in Hmid as [Hmid ->], Hout as [Hout ->].
  pose proof (randint_spec 0 (ex_height - Z.of_nat height) made) as Hoh'.
  rewrite Hoh in Hoh'. destruct Hoh' as (-> & Hoh' & _).
  pose proof (randint_spec 0 (ex_width - Z.of_nat width) (S made)) as How'.
  rewrite How in How'. destruct How' as (-> & How' & _).
  split; [lia|].
  exists ex_height, ex_width, (Z.to_nat oh), (Z.to_nat ow).
  rewrite !Z2Nat.id by lia.
  split; [done|]. split; [done|]. split; [lia|]. split; [lia|].
  apply traverse_Return in Hmid, Hout.
  eapply Forall2_compose; [|exact Hmid|exact Hout].
  intros stack resized_stack cropped_stack Hresized Hcropped.
  apply traverse_Return in Hresized, Hcropped.
  eapply Forall2_compose; [|exact Hresized|exact Hcropped].
  intros x resized y Hx Hy. by exists resized.
Qed.

(** X27: [random_crop_images] fails as [int(x*expand)] fails, for the
    height or for the width; when both expanded sizes are computed and
    the expanded height is not above [height] or the expanded width not
    above [width], it fails with a [ValueError], in [np.random.randint];
    and when it has returned, with a resizing whose result has the size
    asked for, it has made two draws, the expanded sizes are above the
    sizes, and every image of the dataset is resized to the expanded
    sizes and cropped at the same offsets to [height] by [width], inside
    the resized image and never up to its last row or its last column. *)
Theorem random_crop_images_outcome (dataset : list (list image))
    (height width : nat) (expand : float) (made : nat) :
  resize_shape →
  (∀ e, int_times height expand = Throw e →
        random_crop_images dataset (height, width) expand made = Throw e)
  ∧ (∀ ex_height e,
       int_times height expand = Return ex_height →
       int_times width expand = Throw e →
       random_crop_images dataset (height, width) expand made = Throw e)
  ∧ (∀ ex_height ex_width,
       int_times height expand = Return ex_height →
       int_times width expand = Return ex_width →
       (ex_height ≤ Z.of_nat height ∨ ex_width ≤ Z.of_nat width)%Z →
       ∃ what,
         random_crop_images dataset (height, width) expand made
         = Throw (ValueError what))
  ∧ (∀ cropped made',
       random_crop_images dataset (height, width) expand made
       = Return (cropped, made') →
       made' = made + 2
       ∧ ∃ (ex_height ex_width : Z) (offset_height offset_width : nat),
           int_times height expand = Return ex_height
           ∧ int_times width expand = Return ex_width
           ∧ (Z.of_nat (offset_height + height) < ex_height)%Z
           ∧ (Z.of_nat (offset_width + width) < ex_width)%Z
           ∧ Forall2
               (Forall2
                  (λ x y : image,
                     ∃ resized,
                       resize x (ex_height, ex_width) = Return resized
                       ∧ y = (λ row : list (list R),
                                take width (drop offset_width row))
                             <$> take height (drop offset_height resized)
                       ∧ has_shape height width y))
               dataset cropped).
Proof.
  intros Hresize. split; [|split; [|split]].
  - intros e He. unfold random_crop_images, mbind, Rand_bind, lift.
    by rewrite He.
  - intros ex_height e Hh He.
    unfold random_crop_images, mbind, Rand_bind, lift. by rewrite Hh, He.
  - intros ex_height ex_width Hh Hw Hle.
    unfold random_crop_images.
    unfold mbind at 1, Rand_bind at 1, lift at 1. rewrite Hh.
    unfold mbind at 1, Rand_bind at 1, lift at 1. rewrite Hw.
    unfold mbind at 1, Rand_bind at 1.
    pose proof (randint_spec 0 (ex_height - Z.of_nat height) made) as Hoh.
    destruct (randint 0 _ made) as [[oh made1]|e];
      [|by destruct Hoh as [what ->]; exists what].
    unfold mbind at 1, Rand_bind at 1.
    pose proof (randint_spec 0 (ex_width - Z.of_nat width) made1) as How.
    destruct (randint 0 _ made1) as [[ow made2]|e];
      [|by destruct How as [what ->]; exists what].
    exfalso. lia.
  - intros cropped made' Hcall.
    apply random_crop_images_inv in Hcall
      as (-> & ex_height & ex_width & oh & ow & Hh & Hw & Hoh & How & Hall).
    split; [done|].
    exists ex_height, ex_width, oh, ow. do 4 (split; [done|]).
    eapply Forall2_impl; [exact Hall|]. intros stack cropped_stack Hstack.
    eapply Forall2_impl; [exact Hstack|].
    intros x y (resized & Hx & Hy). exists resized. split; [done|].
    split.
    + apply crop_Return in Hy. by rewrite !Nat2Z.id in Hy.
    + eapply crop_Return_shape; [|exact Hy]. by eapply Hresize.
Qed.

Lemma random_crop_images_Return (dataset : list (list image))
    (image_size : nat * nat) (expand : float) (made : nat)
    (cropped : list (list image)) (made' : nat) :
  random_crop_images dataset image_size expand made = Return (cropped, made') →
  made' = made + 2
  ∧ ∃ offset_height offset_width,
      Forall2 (Forall2 (augmented image_size expand offset_height
                          offset_width false))
              dataset cropped.
Proof.
  destruct image_size as [height width].
  intros (-> & ex_height & ex_width & oh & ow & Hh & Hw & Hoh & How & Hall)
    %random_crop_images_inv.
  split; [done|]. exists oh, ow.
  eapply Forall2_impl; [exact Hall|]. intros stack cropped_stack Hstack.
  eapply Forall2_impl; [exact Hstack|].
  intros x y (resized & Hx & Hy%crop_Return). rewrite !Nat2Z.id in Hy.
  exists ex_height, ex_width. do 4 (split; [done|]). by exists resized.
Qed.

Lemma random_flip_left_right_images_Return (dataset : list (list image))
    (made : nat) (flipped : list (list image)) (made' : nat) :
  random_flip_left_right_images dataset made = Return (flipped, made') →
  made' = made + 1
  ∧ ∃ flip : bool,
      flipped = if flip
                then (λ stack : list image, flip_left_right <$> stack)
                     <$> dataset
                else dataset.
Proof.
  unfold random_flip_left_right_images.
  intros (r & made1 & Hr & Hret)%bind_Return.
  pose proof (randint_spec 0 2 made) as Hr'. rewrite Hr in Hr'.
  destruct Hr' as [-> _]. split; [case_decide; injection Hret; lia|].
  case_decide; injection Hret as <- _; [by exists false|by exists true].
Qed.

Lemma augment_Return (aug_num : nat) (image_x image_y : image)
    (image_size : nat * nat) (expand : float) (dataset_x dataset_y : list image)
    (made : nat) (dataset_x' dataset_y' : list image) (made' : nat) :
  augment aug_num image_x image_y image_size expand (dataset_x, dataset_y) made
  = Return ((dataset_x', dataset_y'), made') →
  ∃ xs ys,
    dataset_x' = dataset_x ++ xs ∧ dataset_y' = dataset_y ++ ys
    ∧ length xs = aug_num ∧ made' = made + 3 * aug_num
    ∧ Forall2 (augmented_alike image_size expand image_x image_y) xs ys.
Proof.
  revert dataset_x dataset_y made.
  induction aug_num as [|aug_num IH]; intros dataset_x dataset_y made;
    cbn [augment].
  - intros [= <- <- <-]. exists [], []. rewrite !app_nil_r.
    repeat split; [lia|constructor].
  - intros (cropped & made1 & Hcrop & Hrest)%bind_Return.
    apply bind_Return in Hrest as (flipped & made2 & Hflip & Hrest).
    apply random_crop_images_Return in Hcrop as (-> & oh & ow & Hcrop).
    apply random_flip_left_right_images_Return in Hflip as (-> & flip & ->).
    apply Forall2_cons_inv_l in Hcrop as (stack & rest & Hstack & Hnil & ->).
    apply Forall2_nil_inv_l in Hnil as ->.
    apply Forall2_cons_inv_l in Hstack as (cx & stack' & Hcx & Hstack & ->).
    apply Forall2_cons_inv_l in Hstack as (cy & stack'' & Hcy & Hnil & ->).
    apply Forall2_nil_inv_l in Hnil as ->.
    assert (∃ x y,
              (if flip
               then (λ stack : list image, flip_left_right <$> stack)
                    <$> [[cx; cy]]
               else [[cx; cy]]) = [[x; y]]
              ∧ augmented_alike image_size expand image_x image_y x y)
      as (x & y & Heq & Hxy).
    { destruct Hcx as (eh & ew & Heh & Hew & Hh & Hw & rx & Hrx & Hcx).
      destruct Hcy as (eh' & ew' & Heh' & Hew' & _ & _ & ry & Hry & Hcy).
      rewrite Heh in Heh'. injection Heh' as <-.
      rewrite Hew in Hew'. injection Hew' as <-.
      cbv zeta in Hcx, Hcy.
      destruct flip.
      - exists (flip_left_right cx), (flip_left_right cy).
        split; [done|]. exists oh, ow, true.
        split; (exists eh, ew; do 4 (split; [done|])).
        + exists rx. split; [done|]. cbv zeta. by rewrite <- Hcx.
        + exists ry. split; [done|]. cbv zeta. by rewrite <- Hcy.
      - exists cx, cy. split; [done|]. exists oh, ow, false.
        split; (exists eh, ew; do 4 (split; [done|])).
        + by exists rx.
        + by exists ry. }
    rewrite Heq in Hrest.
    apply IH in Hrest as (xs & ys & -> & -> & Hlen & -> & Hall).
    exists (x :: xs), (y :: ys). rewrite <- !app_assoc.
    repeat split; [cbn; lia|lia|by constructor].
Qed.

Lemma load_pairs_Return (paths : list (string * string))
    (image_size : nat * nat) (channels aug_num : nat) (expand : float)
    (dataset_x dataset_y : list image) (made : nat)
    (dataset_x' dataset_y' : list image) (made' : nat) :
  load_pairs paths image_size channels aug_num expand (dataset_x, dataset_y)
    made
  = Return ((dataset_x', dataset_y'), made') →
  ∃ xs ys,
    dataset_x' = dataset_x ++ xs ∧ dataset_y' = dataset_y ++ ys
    ∧ length xs = aug_num * length paths
    ∧ made' = made + 3 * (aug_num * length paths)
    ∧ Forall2 (λ x y,
                 ∃ path_x path_y image_x image_y,
                   (path_x, path_y) ∈ paths
                   ∧ loaded image_size channels path_x image_x
                   ∧ loaded image_size channels path_y image_y
                   ∧ augmented_alike image_size expand image_x image_y x y)
              xs ys.
Proof.
  revert dataset_x dataset_y made.
  induction paths as [|[path_x path_y] paths IH];
    intros dataset_x dataset_y made; cbn [load_pairs].
  - intros [= <- <- <-]. exists [], []. rewrite !app_nil_r.
    repeat split; [cbn; lia|cbn; lia|constructor].
  - intros (image_x & made1 & Hx & Hrest)%bind_Return.
    apply bind_Return in Hrest as (image_y & made2 & Hy & Hrest).
    apply bind_Return in Hrest as ([dx dy] & made3 & Haug & Hrest).
    apply lift_Return in Hx as [Hx ->], Hy as [Hy ->].
    apply augment_Return in Haug as (xs & ys & -> & -> & Hlen & -> & Hall).
    apply IH in Hrest as (xs' & ys' & -> & -> & Hlen' & -> & Hall').
    exists (xs ++ xs'), (ys ++ ys'). rewrite <- !app_assoc.
    repeat split; [rewrite length_app; cbn; lia|cbn; lia|].
    apply Forall2_app.
    + eapply Forall2_impl; [exact Hall|]. intros x y Hxy.
      exists path_x, path_y, image_x, image_y.
      split; [left|done].
    + eapply Forall2_impl; [exact Hall'|].
      intros x y (px & py & ix & iy & Hin & Hrest).
      exists px, py, ix, iy. split; [by right|done].
Qed.


(** X29: the images at one position of the two datasets that
    [load_and_preprocessing_data] returns come from one pair of files of
    [zip(paths_x, paths_y)], resized alike, cropped at the same offsets
    and flipped or not flipped together. *)
Theorem augmentation_is_paired (paths_x paths_y : list string)
    (image_size : nat * nat) (batch_size channels aug_num : nat) (expand : float)
    (made : nat) (dataset_x dataset_y : list (list image)) (made' : nat) :
  load_and_preprocessing_data paths_x paths_y image_size batch_size channels
    aug_num expand made
  = Return ((dataset_x, dataset_y), made') →
  Forall2 (λ x y,
             ∃ path_x path_y image_x image_y,
               (path_x, path_y) ∈ zip paths_x paths_y
               ∧ loaded image_size channels path_x image_x
               ∧ loaded image_size channels path_y image_y
               ∧ augmented_alike image_size expand image_x image_y x y)
          (concat dataset_x) (concat dataset_y).
Proof.
  unfold load_and_preprocessing_data.
  intros ([dx dy] & made1 & Hload & Hrest)%bind_Return.
  apply bind_Return in Hrest as (batched_x & made2 & Hbx & Hrest).
  apply bind_Return in Hrest as (batched_y & made3 & Hby & Hret).
  injection Hret as -> -> ->.
  apply lift_Return in Hbx as [Hbx ->], Hby as [Hby ->].
  apply load_pairs_Return in Hload as (xs & ys & -> & -> & _ & _ & Hall).
  unfold batch in Hbx, Hby.
  destruct batch_size as [|batch_size]; [done|].
  injection Hbx as <-. injection Hby as <-.
  by rewrite !batches_concat.
Qed.

End Environment.

Lemma nearest_shape : @resize_shape two_files.
Proof.
  intros x h w y [= <-]. split.
  - by rewrite length_fmap, length_seq.
  - apply Forall_fmap, Forall_forall. intros i _. cbn.
    by rewrite length_fmap, length_seq.
Qed.

Lemma random_crop_images_outcome_witness :
  ∃ cropped,
    @random_crop_images two_files
      [[replicate 2 (replicate 2 [0%R]); replicate 2 (replicate 2 [1%R])]]
      (2, 2) 1.5%float 0
    = Return (cropped, 2)
    ∧ Forall (Forall (has_shape 2 2)) cropped.
Proof.
  destruct (@random_crop_images two_files
              [[replicate 2 (replicate 2 [0%R]);
                replicate 2 (replicate 2 [1%R])]]
              (2, 2) 1.5%float 0)
    as [[cropped made']|e] eqn:Hcall;
    [|by cbv -[Rmult Rminus IZR] in Hcall].
  destruct (@random_crop_images_outcome two_files
              [[replicate 2 (replicate 2 [0%R]);
                replicate 2 (replicate 2 [1%R])]]
              2 2 1.5%float 0 nearest_shape)
    as (_ & _ & _ & Hret).
  destruct (Hret _ _ Hcall)
    as (-> & eh & ew & oh & ow & _ & _ & _ & _ & Hall).
  exists cropped. split; [reflexivity|].
  eapply Forall2_right; [|exact Hall].
  intros stack cropped_stack Hstack.
  eapply Forall2_right; [|exact Hstack].
  by intros x y (_ & _ & _ & Hy).
Defined.


Lemma augmentation_is_paired_witness :
  ∃ dataset_x dataset_y made',
    @load_and_preprocessing_data two_files ["x.png"] ["y.png"] (2, 2) 1 1 1
      2%float 0
    = Return ((dataset_x, dataset_y), made')
    ∧ Forall2 (λ x y,
                 ∃ image_x image_y,
                   @loaded two_files (2, 2) 1 "x.png" image_x
                   ∧ @loaded two_files (2, 2) 1 "y.png" image_y
                   ∧ @augmented_alike two_files (2, 2) 2%float
                       image_x image_y x y)
              (concat dataset_x) (concat dataset_y).
Proof.
  destruct (@load_and_preprocessing_data two_files ["x.png"] ["y.png"] (2, 2)
              1 1 1 2%float 0)
    as [[[dataset_x dataset_y] made']|e] eqn:Hcall;
    [|by cbv -[Rmult Rminus IZR] in Hcall].
  exists dataset_x, dataset_y, made'. split; [reflexivity|].
  eapply Forall2_impl;
    [exact (@augmentation_is_paired two_files _ _ _ _ _ _ _ _ _ _ _ Hcall)|].
  intros x y (path_x & path_y & image_x & image_y & Hin & Hx & Hy & Hxy).
  apply list_elem_of_singleton in Hin as [= -> ->].
  by exists image_x, image_y.
Defined.

End DataFacts.
